(** * Image-Colorization: the colour-space ETL pipeline and the generator network

    A shallow embedding of [etl.py] and [generator.py].

    - Python exceptions are modelled by their class name; a computation that
      may raise returns a [result].
    - numpy arrays of the ETL pipeline hold exact rationals ([Q]); the
      generator's tensors hold reals ([R]), because [tanh] is needed there.
      Floating-point rounding is outside the model.
    - Library calls (numpy, torch, torchvision) are modelled by what they
      compute, and what they raise, on the values the code feeds them.
    - Where a call changes an iterator or the random state before it
      raises, the changed state is returned beside the result. *)

From Stdlib Require Import String List Bool Arith Lia ZArith QArith Qminmax Qabs Lqa Reals Lra.
Import ListNotations.

(** ** Exceptions and results *)

(** A Python exception, identified by the name of its class. *)
Definition exn := string.

Definition StopIteration : exn := "StopIteration"%string.
Definition RuntimeError : exn := "RuntimeError"%string.
Definition AttributeError : exn := "AttributeError"%string.
Definition TypeError : exn := "TypeError"%string.
Definition ValueError : exn := "ValueError"%string.
Definition IndexError : exn := "IndexError"%string.


Inductive result (A : Type) : Type :=
| Ok (a : A)
| Raise (e : exn).
Arguments Ok {A} a.
Arguments Raise {A} e.

Definition bind {A B : Type} (m : result A) (f : A -> result B) : result B :=
  match m with
  | Ok a => f a
  | Raise e => Raise e
  end.

Notation "x <- m ;; k" := (bind m (fun x => k))
  (at level 61, m at next level, right associativity).

(** ** The colour-space ETL pipeline ([etl.py]) *)

Module ETL.

Local Open Scope Q_scope.

(** One pixel of an [H x W x 3] array: its three channel values. *)
Definition pixel : Type := (Q * Q * Q)%type.

(** An [H x W x 3] numpy array: rows of pixels. *)
Definition image : Type := list (list pixel).

(** A [3 x 3] matrix, by rows. *)
Definition matrix : Type := (pixel * pixel * pixel)%type.

Definition pixel_eq (p q : pixel) : Prop :=
  let '(a0, a1, a2) := p in
  let '(b0, b1, b2) := q in
  a0 == b0 /\ a1 == b1 /\ a2 == b2.

Definition image_eq (a b : image) : Prop := Forall2 (Forall2 pixel_eq) a b.

Definition map_image (f : pixel -> pixel) (im : image) : image :=
  map (map f) im.

(** [p.dot(m)] on the last axis: the row vector [p] times [m],
    [out[j] = sum_k p[k] * m[k][j]]. *)
Definition dot (p : pixel) (m : matrix) : pixel :=
  let '(p0, p1, p2) := p in
  let '((m00, m01, m02), (m10, m11, m12), (m20, m21, m22)) := m in
  (p0 * m00 + p1 * m10 + p2 * m20,
   p0 * m01 + p1 * m11 + p2 * m21,
   p0 * m02 + p1 * m12 + p2 * m22).

(** Broadcast [+ v] and [- v] of a length-3 vector over the last axis. *)
Definition add_vec (p v : pixel) : pixel :=
  let '(p0, p1, p2) := p in
  let '(v0, v1, v2) := v in
  (p0 + v0, p1 + v1, p2 + v2).

Definition sub_vec (p v : pixel) : pixel :=
  let '(p0, p1, p2) := p in
  let '(v0, v1, v2) := v in
  (p0 - v0, p1 - v1, p2 - v2).

Definition map_pixel (f : Q -> Q) (p : pixel) : pixel :=
  let '(p0, p1, p2) := p in (f p0, f p1, f p2).

(** [x.clip(min=lo, max=hi)]: [minimum(maximum(x, lo), hi)]. *)
Definition clip (lo hi x : Q) : Q := Qmin (Qmax x lo) hi.

Definition offset : pixel := (0, 127.5, 127.5).

Definition rgb2yuv_matrix : matrix :=
  ((0.299, -0.169, 0.5),
   (0.587, -0.331, -0.419),
   (0.114, 0.5, -0.081)).

Definition rgb2yuv_pixel (p : pixel) : pixel :=
  map_pixel (fun x => x / 127.5 - 1) (add_vec (dot p rgb2yuv_matrix) offset).

Definition rgb2yuv (im : image) : image :=
  let cvt_matrix := rgb2yuv_matrix in
  let im := map_image (fun p => add_vec (dot p cvt_matrix) offset) im in
  map_image (map_pixel (fun x => x / 127.5 - 1)) im.

Definition yuv2rgb_matrix : matrix :=
  ((1, 1, 1),
   (-0.00093, -0.3437, 1.77216),
   (1.401687, -0.71417, 0.00099)).

(** The numpy arrays live in a store; a caller holds a reference. *)
Definition ref : Type := nat.
Definition heap : Type := ref -> image.

Definition upd (h : heap) (r : ref) (im : image) : heap :=
  fun r' => if Nat.eqb r' r then im else h r'.

(** [yuv2rgb(image)]: [image -= [0, 127.5, 127.5]] writes into the array
    the caller passed; [dot] and [clip] build a new array, which is
    returned. *)
Definition yuv2rgb (r : ref) (h : heap) : image * heap :=
  let cvt_matrix := yuv2rgb_matrix in
  let h' := upd h r (map_image (fun p => sub_vec p offset) (h r)) in
  (map_image (fun p => map_pixel (clip 0 255) (dot p cvt_matrix)) (h' r), h').

(** *** The data loader

    [torchvision.datasets.ImageFolder] under the transform of [__init__],
    [torch.utils.data.DataLoader(dataset, batch_size)] and its iterator.
    A call that raises keeps what it has changed before raising: the
    iterator and the random state are returned beside the result. *)

(** The process-wide random state: a stream of draws. *)
Definition rng : Type := nat -> nat.

(** [random.random() < 0.5]; the draw is consumed. *)
Definition coin (g : rng) : bool * rng :=
  (Nat.even (g 0%nat), fun n => g (S n)).

(** The random state after [k] draws. *)
Definition advance (k : nat) (g : rng) : rng := fun n => g (k + n)%nat.

Definition insert_at {A : Type} (k : nat) (x : A) (l : list A) : list A :=
  firstn k l ++ x :: skipn k l.

Fixpoint randperm (g : rng) (n : nat) : list nat :=
  match n with
  | O => []
  | S m => insert_at (g m mod S m) m (randperm g m)
  end.

(** The order the indices are drawn in: sequential, or with [shuffle] a
    permutation drawn from the random state. *)
Definition sampler (shuffle : bool) (g : rng) (n : nat) : list nat :=
  if shuffle then randperm g n else seq 0 n.

(** [img.transpose(FLIP_LEFT_RIGHT)]. *)
Definition hflip (im : image) : image := map (@rev pixel) im.

(** A [PIL.Image.Image]. *)
Record PIL_Image : Type := mkPIL { pil_pixels : image }.

(** The image folder: the decoded files, each with the index of its
    class, and the size its transform scales and crops to. *)
Record ImageFolder : Type := mkImageFolder {
  samples : list (image * nat);
  crop_size : nat
}.

Record DataLoaderIter : Type := mkIter {
  dataset : ImageFolder;
  loader_batch_size : nat;
  sample_iter : list nat   (* the indices the sampler has yet to yield *)
}.

(** [iter(DataLoader(cap, batch_size, shuffle))]; a batch size of 0 is
    refused. *)
Definition DataLoader (cap : ImageFolder) (batch_size : nat)
    (shuffle : bool) (g : rng) : result DataLoaderIter :=
  if Nat.eqb batch_size 0 then Raise ValueError
  else Ok (mkIter cap batch_size (sampler shuffle g (length (samples cap)))).

(** The batch sampler ([drop_last=False]): indices are appended to the
    batch until it holds [batch_size] of them; what is left when the
    sampler ends is yielded as a last, shorter batch. *)
Fixpoint take_batch (batch_size : nat) (batch rest : list nat)
    : list nat * list nat :=
  match rest with
  | [] => (batch, [])
  | i :: rest' =>
      let batch' := batch ++ [i] in
      if Nat.eqb (length batch') batch_size then (batch', rest')
      else take_batch batch_size batch' rest'
  end.

(** The indices of the next batch; [StopIteration] when none is left. *)
Definition next_indices (it : DataLoaderIter)
    : result (list nat * DataLoaderIter) :=
  match take_batch (loader_batch_size it) [] (sample_iter it) with
  | ([], _) => Raise StopIteration
  | (idx, rest) => Ok (idx, mkIter (dataset it) (loader_batch_size it) rest)
  end.

(** One pass of the loader, observed on the sample indices: the index
    batches drawn until the sampler is exhausted, at most [fuel] of
    them. *)
Fixpoint drain_indices (fuel : nat) (it : DataLoaderIter) : list (list nat) :=
  match fuel with
  | O => []
  | S fuel' =>
      match next_indices it with
      | Ok (idx, it') => idx :: drain_indices fuel' it'
      | Raise _ => []
      end
  end.

(** [default_collate] on the [(image, label)] pairs of one batch.  It
    collates each field by the type of its first element, and a PIL image
    is none of the types it can batch. *)
Definition default_collate (batch : list (PIL_Image * nat))
    : result (list image) :=
  match batch with
  | [] => Raise IndexError
  | _ :: _ => Raise TypeError
  end.

(** *** The [ETL] class *)

Record t : Type := mkETL {
  batch_size : nat;
  image_size : nat;
  loader : DataLoaderIter;
  n_examples : nat
}.

Definition set_loader (self : t) (it : DataLoaderIter) : t :=
  mkETL (batch_size self) (image_size self) it (n_examples self).

(** The [batch x H x W x 1] slice [images[:, :, :, 0].unsqueeze(-1)]. *)
Definition luma_channel (images : list image) : list (list (list (list Q))) :=
  map (map (map (fun p : pixel => [fst (fst p)]))) images.

Section Pipeline.

(** [transforms.Scale(size)] followed by [transforms.CenterCrop(size)]:
    the resampling is PIL's. *)
Variable scale_crop : nat -> image -> image.

(** The exception [ImageFolder] raises for a folder without images, and
    the one raised when an object that holds a worker pool is pickled.
    Their classes depend on the versions of the libraries. *)
Variable EmptyFolderError : exn.
Variable PicklingError : exn.

(** The transform of [__init__]: [RandomHorizontalFlip], [Scale],
    [CenterCrop].  No [ToTensor]: the result is a PIL image. *)
Definition transform (size : nat) (im : image) (g : rng) : PIL_Image * rng :=
  let '(flip, g') := coin g in
  (mkPIL (scale_crop size (if flip then hflip im else im)), g').

(** [cap[i]]. *)
Definition getitem (cap : ImageFolder) (i : nat) (g : rng)
    : result (PIL_Image * nat) * rng :=
  match nth_error (samples cap) i with
  | None => (Raise IndexError, g)
  | Some (im, label) =>
      let '(img, g') := transform (crop_size cap) im g in
      (Ok (img, label), g')
  end.

(** [[cap[i] for i in indices]]. *)
Fixpoint fetch (cap : ImageFolder) (indices : list nat) (g : rng)
    : result (list (PIL_Image * nat)) * rng :=
  match indices with
  | [] => (Ok [], g)
  | i :: indices' =>
      match getitem cap i g with
      | (Raise e, g1) => (Raise e, g1)
      | (Ok x, g1) =>
          match fetch cap indices' g1 with
          | (Raise e, g2) => (Raise e, g2)
          | (Ok xs, g2) => (Ok (x :: xs), g2)
          end
      end
  end.

(** [next(loader)]: the batch sampler yields the indices, the samples are
    fetched, and the batch is collated. *)
Definition next (it : DataLoaderIter) (g : rng)
    : (result (list image) * DataLoaderIter) * rng :=
  match next_indices it with
  | Raise e => ((Raise e, it), g)
  | Ok (indices, it') =>
      match fetch (dataset it) indices g with
      | (Raise e, g') => ((Raise e, it'), g')
      | (Ok batch, g') => ((default_collate batch, it'), g')
      end
  end.

(** [ImageFolder('data/training', transform=transform)] over the files
    found there. *)
Definition ImageFolder_init (files : list (image * nat)) (size : nat)
    : result ImageFolder :=
  match files with
  | [] => Raise EmptyFolderError
  | _ :: _ => Ok (mkImageFolder files size)
  end.

(** [ETL.__init__(batch_size, image_size)] over the files of
    ['data/training'].  The loader is built with
    [DataLoader(cap, self.batch_size)], so [shuffle] has its default,
    [False]. *)
Definition init (g : rng) (files : list (image * nat))
    (batch_size image_size : nat) : result t :=
  cap <- ImageFolder_init files image_size ;;
  loader <- DataLoader cap batch_size false g ;;
  Ok (mkETL batch_size image_size loader (length (samples cap))).

(** [self.pool.map(self.rgb2yuv, images)]: the bound method is sent to
    the workers pickled, and with it [self], which holds the pool and the
    iterator of the loader. *)
Definition pool_map (f : image -> image) (images : list image)
    : result (list image) :=
  Raise PicklingError.

(** [next_batch()]. *)
Definition next_batch (self : t) (g : rng)
    : (result (list (list (list (list Q))) * list image) * t) * rng :=
  match next (loader self) g with
  | ((Raise e, it), g') => ((Raise e, set_loader self it), g')
  | ((Ok images, it), g') =>
      let self' := set_loader self it in
      match pool_map rgb2yuv images with
      | Raise e => ((Raise e, self'), g')
      | Ok images =>
          let y := luma_channel images in
          ((Ok (y, images), self'), g')
      end
  end.

End Pipeline.

(** The pending indices of a loader all denote files of its folder. *)
Definition indices_in_range (it : DataLoaderIter) : Prop :=
  Forall (fun k => k < length (samples (dataset it)))%nat (sample_iter it).

(** The step the round trip takes between [rgb2yuv] and [yuv2rgb]:
    undo [x / 127.5 - 1]. *)
Definition denormalize (im : image) : image :=
  map_image (map_pixel (fun x => (x + 1) * 127.5)) im.

(** An image whose channel values are integers. *)
Definition of_ints (im : list (list (Z * Z * Z))) : image :=
  map (map (fun p : Z * Z * Z =>
              let '(r, g, b) := p in (inject_Z r, inject_Z g, inject_Z b))) im.


Definition in_range (lo hi : Q) (p : pixel) : Prop :=
  let '(a, b, c) := p in
  (lo <= a /\ a <= hi) /\ (lo <= b /\ b <= hi) /\ (lo <= c /\ c <= hi).

Definition image_in_range (lo hi : Q) (im : image) : Prop :=
  Forall (Forall (in_range lo hi)) im.

(** Channel-wise distance of two pixels is at most [d]. *)
Definition pixel_close (d : Q) (p q : pixel) : Prop :=
  let '(a0, a1, a2) := p in
  let '(b0, b1, b2) := q in
  Qabs (a0 - b0) <= d /\ Qabs (a1 - b1) <= d /\ Qabs (a2 - b2) <= d.

Definition image_close (d : Q) (a b : image) : Prop :=
  Forall2 (Forall2 (pixel_close d)) a b.

(** The pixel [yuv2rgb] returns for the pixel [rgb2yuv] made, once the
    normalization is undone. *)
Definition round_trip_pixel (p : pixel) : pixel :=
  map_pixel (clip 0 255)
    (dot (sub_vec (map_pixel (fun x => (x + 1) * 127.5) (rgb2yuv_pixel p))
                  offset)
         yuv2rgb_matrix).

(** Integer channel values within [lo, hi]. *)
Definition ints_in_range (lo hi : Z) (im : list (list (Z * Z * Z))) : Prop :=
  Forall (Forall (fun p : Z * Z * Z =>
                    let '(r, g, b) := p in
                    (lo <= r <= hi)%Z /\ (lo <= g <= hi)%Z /\ (lo <= b <= hi)%Z))
         im.

(** The batches a batch sampler cuts a list of indices into: runs of
    [batch_size], the last one possibly shorter. *)
Fixpoint chunks (fuel batch_size : nat) (l : list nat) : list (list nat) :=
  match fuel, l with
  | S fuel', _ :: _ =>
      firstn batch_size l :: chunks fuel' batch_size (skipn batch_size l)
  | _, _ => []
  end.

(** *** Sample data *)

Definition sample_ints : list (list (Z * Z * Z)) :=
  [[(255, 0, 0); (12, 200, 7)]; [(0, 0, 255); (255, 255, 255)]]%Z.

Definition sample_image : image := of_ints sample_ints.

(** Ten one-pixel files of one class, the [k]-th of red value [k]. *)
Definition sample_folder : list (image * nat) :=
  map (fun k : nat => ([[(inject_Z (Z.of_nat k), 0, 0)]], 0%nat)) (seq 0 10).

(** The pipeline [ETL(4, 64)] over them. *)
Definition sample_pipeline : t :=
  mkETL 4 64 (mkIter (mkImageFolder sample_folder 64) 4 (seq 0 10)) 10.

(** A stand-in for the resampling, and the two exceptions as current
    versions of torchvision and Python raise them. *)
Definition sample_scale_crop : nat -> image -> image := fun _ im => im.
Definition sample_EmptyFolderError : exn := "FileNotFoundError"%string.
Definition sample_PicklingError : exn := "NotImplementedError"%string.


(** Two random states: every draw 0, and the [n]-th draw [n]. *)
Definition rng_zero : rng := fun _ => 0%nat.

End ETL.

(** ** The generator network ([generator.py]) *)

Module Generator.

Local Open Scope R_scope.

(** A 4-dimensional torch tensor.  torch reads dimension 1 as the channel
    axis ([Conv2d], [BatchNorm2d], and [torch.cat(..., 1)] in [forward]),
    dimension 0 as the batch and dimensions 2 and 3 as the spatial axes. *)
Record Tensor : Type := mkTensor {
  size0 : nat;
  size1 : nat;
  size2 : nat;
  size3 : nat;
  item : nat -> nat -> nat -> nat -> R
}.

(** Same sizes, same entries at every index within them. *)
Definition tensor_eq (a b : Tensor) : Prop :=
  size0 a = size0 b /\ size1 a = size1 b /\
  size2 a = size2 b /\ size3 a = size3 b /\
  forall n c h w : nat,
    (n < size0 a)%nat -> (c < size1 a)%nat ->
    (h < size2 a)%nat -> (w < size3 a)%nat ->
    item a n c h w = item b n c h w.

(** The slice [t[:, lo:lo+k]] of [k] channels. *)
Definition channels (lo k : nat) (t : Tensor) : Tensor :=
  mkTensor (size0 t) k (size2 t) (size3 t)
           (fun n c h w => item t n (lo + c) h w).

(** [torch.cat([a, b], 1)]: every size but that of dimension 1 must agree. *)
Definition cat1 (a b : Tensor) : result Tensor :=
  if Nat.eqb (size0 a) (size0 b) && Nat.eqb (size2 a) (size2 b)
     && Nat.eqb (size3 a) (size3 b)
  then Ok (mkTensor (size0 a) (size1 a + size1 b) (size2 a) (size3 a)
             (fun n c h w =>
                if Nat.ltb c (size1 a) then item a n c h w
                else item b n (c - size1 a) h w))
  else Raise RuntimeError.

(** Elementwise application, for [nn.ReLU] and [nn.Tanh]. *)
Definition pointwise (f : R -> R) (x : Tensor) : Tensor :=
  mkTensor (size0 x) (size1 x) (size2 x) (size3 x)
           (fun n c h w => f (item x n c h w)).

Definition relu (x : Tensor) : Tensor := pointwise (Rmax 0) x.

(** The hyperbolic tangent of the reals.  In floating point it reaches 1
    and -1 on large arguments, so of its bounds only the non-strict ones
    are stated about what the network returns. *)
Definition tanh (x : Tensor) : Tensor := pointwise Rtrigo_def.tanh x.

(** [sum_{i < n} f i]. *)
Fixpoint rsum (n : nat) (f : nat -> R) : R :=
  match n with
  | O => 0
  | S m => rsum m f + f m
  end.

(** [nn.Conv2d(in_channels, out_channels, kernel_size, padding=padding)],
    stride 1, with its weight and bias. *)
Record Conv2d : Type := mkConv2d {
  in_channels : nat;
  out_channels : nat;
  kernel_size : nat;
  padding : nat;
  weight : nat -> nat -> nat -> nat -> R;
  bias : nat -> R
}.

(** The input padded with [p] zeros on each side of both spatial axes. *)
Definition padded (p : nat) (x : Tensor) (n c h w : nat) : R :=
  if Nat.leb p h && Nat.ltb h (p + size2 x)
     && Nat.leb p w && Nat.ltb w (p + size3 x)
  then item x n c (h - p) (w - p)
  else 0.

Definition conv2d (cv : Conv2d) (x : Tensor) : result Tensor :=
  let k := kernel_size cv in
  let p := padding cv in
  if Nat.eqb (size1 x) (in_channels cv)
     && Nat.leb k (size2 x + 2 * p) && Nat.leb k (size3 x + 2 * p)
  then Ok (mkTensor (size0 x) (out_channels cv)
             (size2 x + 2 * p - (k - 1)) (size3 x + 2 * p - (k - 1))
             (fun n o h w =>
                bias cv o +
                rsum (in_channels cv) (fun i =>
                  rsum k (fun kh =>
                    rsum k (fun kw =>
                      weight cv o i kh kw
                      * padded p x n i (h + kh) (w + kw))))))
  else Raise RuntimeError.

(** [nn.BatchNorm2d(num_features, momentum=momentum)] with its affine
    parameters and running statistics. *)
Record BatchNorm2d : Type := mkBatchNorm2d {
  num_features : nat;
  eps : R;
  momentum : R;
  bn_weight : nat -> R;
  bn_bias : nat -> R;
  running_mean : nat -> R;
  running_var : nat -> R
}.

(** Mean and (biased) variance of channel [c] over batch and space. *)
Definition batch_mean (x : Tensor) (c : nat) : R :=
  rsum (size0 x) (fun n =>
    rsum (size2 x) (fun h =>
      rsum (size3 x) (fun w => item x n c h w)))
  / INR (size0 x * size2 x * size3 x).

Definition batch_var (x : Tensor) (c : nat) : R :=
  rsum (size0 x) (fun n =>
    rsum (size2 x) (fun h =>
      rsum (size3 x) (fun w => (item x n c h w - batch_mean x c) ^ 2)))
  / INR (size0 x * size2 x * size3 x).

(** The value a normalization layer returns: in training mode it
    normalizes with the statistics of the batch, otherwise with the running
    ones.  (In training mode torch also moves the running statistics
    towards those of the batch; the value returned does not depend on
    that.)  In training mode torch first refuses, with [ValueError], an
    input that has a single value per channel. *)
Definition batch_norm (training : bool) (bn : BatchNorm2d) (x : Tensor)
    : result Tensor :=
  if training && Nat.eqb (size0 x * size2 x * size3 x) 1
  then Raise ValueError
  else if Nat.eqb (size1 x) (num_features bn)
  then
    let mean := if training then batch_mean x else running_mean bn in
    let var := if training then batch_var x else running_var bn in
    Ok (mkTensor (size0 x) (size1 x) (size2 x) (size3 x)
          (fun n c h w =>
             (item x n c h w - mean c) / sqrt (var c + eps bn)
             * bn_weight bn c + bn_bias bn c))
  else Raise RuntimeError.

(** The learnable state of the network: the weight and bias of the
    convolution of each block, and the affine parameters and running
    statistics of its normalization. *)
Record Parameters : Type := mkParameters {
  conv_weight : nat -> nat -> nat -> nat -> nat -> R;
  conv_bias : nat -> nat -> R;
  norm_weight : nat -> nat -> R;
  norm_bias : nat -> nat -> R;
  norm_running_mean : nat -> nat -> R;
  norm_running_var : nat -> nat -> R
}.

Record t : Type := mkGenerator {
  conv1 : Conv2d; norm1 : BatchNorm2d;
  conv2 : Conv2d; norm2 : BatchNorm2d;
  conv3 : Conv2d; norm3 : BatchNorm2d;
  conv4 : Conv2d; norm4 : BatchNorm2d;
  conv5 : Conv2d; norm5 : BatchNorm2d;
  conv6 : Conv2d;
  training : bool
}.

Definition Conv2d_init (ps : Parameters) (block c_in c_out k p : nat) : Conv2d :=
  mkConv2d c_in c_out k p (conv_weight ps block) (conv_bias ps block).

Definition BatchNorm2d_init (ps : Parameters) (block features : nat)
    : BatchNorm2d :=
  mkBatchNorm2d features (1 / 100000) (9 / 10)
    (norm_weight ps block) (norm_bias ps block)
    (norm_running_mean ps block) (norm_running_var ps block).

(** [Generator.__init__()]: the sizes of the six blocks.  The values the
    parameters hold (drawn at construction, moved by the optimizer) and
    the mode of the module are arguments. *)
Definition init (ps : Parameters) (training : bool) : t :=
  mkGenerator
    (Conv2d_init ps 1 3 128 7 3) (BatchNorm2d_init ps 1 128)
    (Conv2d_init ps 2 129 64 5 2) (BatchNorm2d_init ps 2 64)
    (Conv2d_init ps 3 65 64 5 2) (BatchNorm2d_init ps 3 64)
    (Conv2d_init ps 4 65 64 5 2) (BatchNorm2d_init ps 4 64)
    (Conv2d_init ps 5 65 32 5 2) (BatchNorm2d_init ps 5 32)
    (Conv2d_init ps 6 33 2 5 2)
    training.

(** The channel counts [__init__] gives the convolution of each block. *)
Definition block_in_channels (block : nat) : nat :=
  match block with
  | 1 => 3 | 2 => 129 | 3 => 65 | 4 => 65 | 5 => 65 | 6 => 33 | _ => 0
  end%nat.

Definition block_out_channels (block : nat) : nat :=
  match block with
  | 1 => 128 | 2 => 64 | 3 => 64 | 4 => 64 | 5 => 32 | 6 => 2 | _ => 0
  end%nat.

(** [getattr(self, "conv{}".format(block))]. *)
Definition getattr_conv (self : t) (block : nat) : result Conv2d :=
  match block with
  | 1 => Ok (conv1 self)
  | 2 => Ok (conv2 self)
  | 3 => Ok (conv3 self)
  | 4 => Ok (conv4 self)
  | 5 => Ok (conv5 self)
  | 6 => Ok (conv6 self)
  | _ => Raise AttributeError
  end%nat.

(** [getattr(self, "norm{}".format(block))]. *)
Definition getattr_norm (self : t) (block : nat) : result BatchNorm2d :=
  match block with
  | 1 => Ok (norm1 self)
  | 2 => Ok (norm2 self)
  | 3 => Ok (norm3 self)
  | 4 => Ok (norm4 self)
  | 5 => Ok (norm5 self)
  | _ => Raise AttributeError
  end%nat.

Definition conv_block (self : t) (x v : Tensor) (block : nat) (last : bool)
    : result Tensor :=
  x <- cat1 x v ;;
  conv <- getattr_conv self block ;;
  x <- conv2d conv x ;;
  if negb last then
    norm <- getattr_norm self block ;;
    y <- batch_norm (training self) norm x ;;
    Ok (relu y)
  else
    Ok (tanh x).

(** The loop [for i in stages: x = self.conv_block(x, v, i, i == 6)]. *)
Definition run_blocks (self : t) (x v : Tensor) (stages : list nat)
    : result Tensor :=
  fold_left
    (fun acc i => x <- acc ;; conv_block self x v i (Nat.eqb i 6))
    stages (Ok x).

(** [for i in range(1, 7)]. *)
Definition blocks (self : t) (x v : Tensor) : result Tensor :=
  run_blocks self x v (seq 1 6).

Definition forward (self : t) (noise v : Tensor) : result Tensor :=
  x <- cat1 v noise ;;
  x <- blocks self x v ;;
  let x := tanh x in
  cat1 x v.

(** What the convolution of block 6 returns during [forward], before any
    activation: blocks 1 to 5 are run, [v] is concatenated and [conv6]
    applied. *)
Definition conv6_output (self : t) (noise v : Tensor) : result Tensor :=
  x <- cat1 v noise ;;
  x <- run_blocks self x v (seq 1 5) ;;
  x <- cat1 x v ;;
  conv2d (conv6 self) x.

(** The inputs [forward] accepts: one channel each, the same batch and
    spatial sizes, and no empty spatial axis. *)
Definition valid_input (noise v : Tensor) : Prop :=
  size1 noise = 1%nat /\ size1 v = 1%nat /\
  size0 noise = size0 v /\ size2 noise = size2 v /\ size3 noise = size3 v /\
  (1 <= size2 v)%nat /\ (1 <= size3 v)%nat.

(** The tensors that hold a single value per channel. *)
Definition single_value (v : Tensor) : Prop :=
  (size0 v * size2 v * size3 v)%nat = 1%nat.

(** [x] has [c] channels on the batch and spatial sizes of [v]. *)
Definition follows (v : Tensor) (c : nat) (x : Tensor) : Prop :=
  size0 x = size0 v /\ size1 x = c /\ size2 x = size2 v /\ size3 x = size3 v.

(** *** Sample data *)

(** A tensor filled with one value. *)
Definition full (n c h w : nat) (x : R) : Tensor :=
  mkTensor n c h w (fun _ _ _ _ => x).

(** All convolution weights 0, the bias of [conv6] 1 and every other bias
    0; normalization with weight 1, bias 0, running mean 0 and running
    variance 1. *)
Definition sample_parameters : Parameters :=
  mkParameters
    (fun _ _ _ _ _ => 0)
    (fun block _ => if Nat.eqb block 6 then 1 else 0)
    (fun _ _ => 1) (fun _ _ => 0) (fun _ _ => 0) (fun _ _ => 1).

Definition sample_generator : t := init sample_parameters false.

Definition sample_noise : Tensor := full 1 1 2 2 0.
Definition sample_v : Tensor := full 1 1 2 2 (1 / 2).

(** Three channels of noise on 16 x 16, and a luma channel on 32 x 32 and
    on 16 x 16 (torch's layout: batch, channels, height, width). *)
Definition sample_noise_3ch : Tensor := full 1 3 16 16 0.
Definition sample_v_16 : Tensor := full 1 1 16 16 (1 / 2).


End Generator.

(** * Properties *)

(** ** The result monad *)

Lemma bind_Ok {A B : Type} (m : result A) (f : A -> result B) (b : B) :
  bind m f = Ok b -> exists a, m = Ok a /\ f a = Ok b.
Proof.
  destruct m as [a|e]; simpl; intros H.
  - exists a. split; [reflexivity | exact H].
  - discriminate H.
Qed.

(** ** The colour-space ETL pipeline *)

Module ETL_facts.

Import ETL Lqa.
Local Open Scope Q_scope.

(** *** Lists *)

Lemma Forall2_map_l {A B : Type} (P : B -> A -> Prop) (f : A -> B) (l : list A) :
  (forall x, In x l -> P (f x) x) -> Forall2 P (map f l) l.
Proof.
  induction l as [|x l IH]; intros H; simpl; constructor.
  - apply H. left. reflexivity.
  - apply IH. intros y Hy. apply H. right. exact Hy.
Qed.



Lemma map_nth_seq {A : Type} (l : list A) (d : A) :
  map (fun i => nth i l d) (seq 0 (length l)) = l.
Proof.
  induction l as [|x l IH]; simpl; [reflexivity|].
  f_equal. rewrite <- seq_shift, map_map. exact IH.
Qed.

(** *** Colour conversion *)

Lemma rgb2yuv_map (im : image) : rgb2yuv im = map_image rgb2yuv_pixel im.
Proof.
  unfold rgb2yuv, map_image. rewrite map_map.
  apply map_ext. intros row. rewrite map_map. reflexivity.
Qed.


Lemma Qdiv_scale (x : Q) : x / 127.5 == x * (2 # 255).
Proof. unfold Qdiv. apply Qmult_comp; reflexivity. Qed.


Lemma in_range_of_ints (ints : list (list (Z * Z * Z))) :
  ints_in_range 0 255 ints -> image_in_range 0 255 (of_ints ints).
Proof.
  unfold ints_in_range, image_in_range, of_ints.
  intros H. apply Forall_map.
  eapply Forall_impl; [|exact H]. intros row Hrow. apply Forall_map.
  eapply Forall_impl; [|exact Hrow]. intros [[r g] b] [Hr [Hg Hb]].
  unfold in_range.
  assert (Z2Q : forall z : Z, (0 <= z <= 255)%Z ->
                  0 <= inject_Z z /\ inject_Z z <= 255).
  { intros z [Hz0 Hz1]. split.
    - change 0 with (inject_Z 0). rewrite <- Zle_Qle. exact Hz0.
    - change 255 with (inject_Z 255). rewrite <- Zle_Qle. exact Hz1. }
  auto.
Qed.

(** Clipping to a range does not move a value away from a point of the
    range. *)
Lemma clip_close (x r d : Q) :
  0 <= r -> r <= 255 -> Qabs (x - r) <= d -> Qabs (clip 0 255 x - r) <= d.
Proof.
  intros Hr0 Hr1 H. apply Qabs_Qle_condition in H. destruct H as [H0 H1].
  apply Qabs_Qle_condition. unfold clip.
  destruct (Q.max_spec x 0) as [[Hlt Hm]|[Hle Hm]];
    destruct (Q.min_spec (Qmax x 0) 255) as [[Hlt' Hn]|[Hle' Hn]];
    rewrite Hn; try rewrite Hm; split; lra.
Qed.

Lemma round_trip_pixel_error (p : pixel) :
  in_range 0 255 p -> pixel_close (1 # 1000) (round_trip_pixel p) p.
Proof.
  destruct p as [[r g] b].
  cbv beta iota zeta delta
    [round_trip_pixel rgb2yuv_pixel in_range pixel_close map_pixel dot
     sub_vec add_vec offset yuv2rgb_matrix rgb2yuv_matrix].
  intros [[Hr0 Hr1] [[Hg0 Hg1] [Hb0 Hb1]]].
  repeat split; apply clip_close; try assumption;
    apply Qabs_Qle_condition; rewrite !Qdiv_scale; split; lra.
Qed.

Lemma yuv2rgb_result (r : ref) (h : heap) :
  fst (yuv2rgb r h) =
  map_image (fun p => map_pixel (clip 0 255)
                        (dot (sub_vec p offset) yuv2rgb_matrix)) (h r).
Proof.
  unfold yuv2rgb, upd; simpl. rewrite Nat.eqb_refl.
  unfold map_image. rewrite map_map. apply map_ext. intros row.
  rewrite map_map. reflexivity.
Qed.

Lemma round_trip_image (im : image) (r : ref) (h : heap) :
  h r = denormalize (rgb2yuv im) ->
  fst (yuv2rgb r h) = map_image round_trip_pixel im.
Proof.
  intros Hh. rewrite yuv2rgb_result, Hh, rgb2yuv_map.
  unfold denormalize, map_image. rewrite !map_map. apply map_ext. intros row.
  rewrite !map_map. reflexivity.
Qed.

Lemma pixel_close_weaken (d e : Q) (p q : pixel) :
  d <= e -> pixel_close d p q -> pixel_close e p q.
Proof.
  destruct p as [[a0 a1] a2], q as [[b0 b1] b2]. unfold pixel_close.
  intros Hde [H0 [H1 H2]]. repeat split; eapply Qle_trans; eassumption.
Qed.

Lemma round_trip_error (d : Q) (im : image) (r : ref) (h : heap) :
  (1 # 1000) <= d ->
  image_in_range 0 255 im ->
  h r = denormalize (rgb2yuv im) ->
  image_close d (fst (yuv2rgb r h)) im.
Proof.
  intros Hd Him Hh. rewrite (round_trip_image im r h Hh).
  unfold image_close, map_image.
  apply Forall2_map_l. intros row Hrow.
  apply Forall2_map_l. intros p Hp.
  apply (pixel_close_weaken (1 # 1000)); [exact Hd|].
  apply round_trip_pixel_error.
  unfold image_in_range in Him. rewrite Forall_forall in Him.
  specialize (Him row Hrow). rewrite Forall_forall in Him. now apply Him.
Qed.


Lemma sample_image_in_range : image_in_range 0 255 sample_image.
Proof.
  apply in_range_of_ints. unfold ints_in_range, sample_ints.
  repeat constructor; lia.
Qed.


(** C5.  For every image whose channels are integers in [0, 255]:
    [rgb2yuv], then the normalization undone, then [yuv2rgb] on the array
    so obtained, gives back every channel of every pixel to within 2. *)
Theorem rgb_yuv_rgb_round_trip_within_2
    (ints : list (list (Z * Z * Z))) (r : ref) (h : heap) :
  ints_in_range 0 255 ints ->
  h r = denormalize (rgb2yuv (of_ints ints)) ->
  image_close 2 (fst (yuv2rgb r h)) (of_ints ints).
Proof.
  intros Hints Hh.
  apply round_trip_error; [lra | now apply in_range_of_ints | exact Hh].
Qed.

Lemma rgb_yuv_rgb_round_trip_within_2_witness :
  ints_in_range 0 255 sample_ints /\
  image_close 2
    (fst (yuv2rgb 0%nat (fun _ => denormalize (rgb2yuv (of_ints sample_ints)))))
    (of_ints sample_ints).
Proof.
  assert (H : ints_in_range 0 255 sample_ints)
    by (unfold ints_in_range, sample_ints; repeat constructor; lia).
  split; [exact H|].
  apply (rgb_yuv_rgb_round_trip_within_2 sample_ints 0%nat
           (fun _ => denormalize (rgb2yuv (of_ints sample_ints))) H).
  reflexivity.
Defined.



(** *** The data loader and [next_batch] *)

Lemma take_batch_spec (bs : nat) (rest batch : list nat) :
  (length batch < bs)%nat ->
  take_batch bs batch rest =
  (batch ++ firstn (bs - length batch) rest, skipn (bs - length batch) rest).
Proof.
  revert batch. induction rest as [|i rest IH]; intros batch Hlt.
  - simpl. rewrite firstn_nil, skipn_nil, app_nil_r. reflexivity.
  - simpl. rewrite length_app. simpl length.
    destruct (Nat.eqb_spec (length batch + 1) bs) as [E|NE].
    + replace (bs - length batch)%nat with 1%nat by lia. reflexivity.
    + rewrite IH by (rewrite length_app; simpl; lia).
      rewrite length_app. simpl length.
      replace (bs - length batch)%nat
        with (S (bs - (length batch + 1)))%nat by lia.
      simpl. rewrite <- app_assoc. reflexivity.
Qed.

Lemma take_batch_app (bs : nat) (rest batch : list nat) :
  fst (take_batch bs batch rest) ++ snd (take_batch bs batch rest) =
  batch ++ rest.
Proof.
  revert batch. induction rest as [|i rest IH]; intros batch.
  - reflexivity.
  - simpl. destruct (Nat.eqb (length (batch ++ [i])) bs).
    + simpl. rewrite <- app_assoc. reflexivity.
    + rewrite IH, <- app_assoc. reflexivity.
Qed.

Lemma take_batch_nonempty (bs : nat) (rest batch : list nat) :
  batch <> [] \/ rest <> [] -> fst (take_batch bs batch rest) <> [].
Proof.
  revert batch. induction rest as [|i rest IH]; intros batch H.
  - simpl. destruct H as [H|H]; [exact H | contradiction].
  - simpl. destruct (Nat.eqb (length (batch ++ [i])) bs).
    + simpl. intros E. now apply app_eq_nil in E as [_ E].
    + apply IH. left. intros E. now apply app_eq_nil in E as [_ E].
Qed.

Lemma next_indices_empty (ds : ImageFolder) (bs : nat) :
  next_indices (mkIter ds bs []) = Raise StopIteration.
Proof. reflexivity. Qed.

Lemma next_indices_cons (ds : ImageFolder) (bs i : nat) (rest : list nat) :
  (0 < bs)%nat ->
  next_indices (mkIter ds bs (i :: rest)) =
  Ok (firstn bs (i :: rest), mkIter ds bs (skipn bs (i :: rest))).
Proof.
  intros Hbs. unfold next_indices. simpl loader_batch_size. simpl sample_iter.
  rewrite take_batch_spec by exact Hbs.
  simpl length. rewrite Nat.sub_0_r.
  destruct bs as [|b]; [lia|]. reflexivity.
Qed.

(** Whatever the batch size, a loader with a pending index yields a
    non-empty batch made of pending indices. *)
Lemma next_indices_pending (ds : ImageFolder) (bs i : nat) (rest : list nat) :
  exists j idx rest',
    next_indices (mkIter ds bs (i :: rest)) =
      Ok (j :: idx, mkIter ds bs rest') /\
    (j :: idx) ++ rest' = i :: rest.
Proof.
  unfold next_indices. simpl loader_batch_size. simpl sample_iter.
  simpl dataset.
  pose proof (take_batch_app bs (i :: rest) []) as Happ.
  assert (Hne : fst (take_batch bs [] (i :: rest)) <> [])
    by (apply take_batch_nonempty; right; discriminate).
  destruct (take_batch bs [] (i :: rest)) as [idx rest'].
  simpl in Happ, Hne. destruct idx as [|j idx]; [contradiction|].
  exists j, idx, rest'. split; [reflexivity | exact Happ].
Qed.


(** Fetching indices of the folder yields one PIL image per index and
    consumes one draw per image. *)
Lemma fetch_in_range (scale_crop : nat -> image -> image)
    (cap : ImageFolder) (indices : list nat) (g : rng) :
  Forall (fun k => k < length (samples cap))%nat indices ->
  exists batch,
    fetch scale_crop cap indices g = (Ok batch, advance (length indices) g) /\
    length batch = length indices.
Proof.
  intros H. revert g. induction H as [|i indices Hi H IH]; intros g.
  - exists []. split; reflexivity.
  - cbn [fetch]. unfold getitem.
    destruct (nth_error (samples cap) i) as [[im label]|] eqn:E;
      [|apply nth_error_None in E; lia].
    unfold transform, coin.
    destruct (IH (fun n => g (S n))) as (batch & Hb & Hlen).
    rewrite Hb. eexists. split; [reflexivity|].
    simpl. rewrite Hlen. reflexivity.
Qed.

Lemma next_batch_exhausted (scale_crop : nat -> image -> image)
    (PicklingError : exn) (self : t) (g : rng) :
  sample_iter (loader self) = [] ->
  next_batch scale_crop PicklingError self g =
    ((Raise StopIteration, self), g).
Proof.
  destruct self as [b s [ds bs rest] n]. simpl. intros ->. reflexivity.
Qed.

(** With indices pending, [next_batch] raises [TypeError]; the indices of
    the batch are consumed all the same, and one draw per image. *)
Lemma next_batch_pending (scale_crop : nat -> image -> image)
    (PicklingError : exn) (b s n : nat) (ds : ImageFolder) (bs i : nat)
    (rest : list nat) (g : rng) :
  Forall (fun k => k < length (samples ds))%nat (i :: rest) ->
  exists j idx rest',
    (j :: idx) ++ rest' = i :: rest /\
    next_indices (mkIter ds bs (i :: rest)) =
      Ok (j :: idx, mkIter ds bs rest') /\
    next_batch scale_crop PicklingError
        (mkETL b s (mkIter ds bs (i :: rest)) n) g =
      ((Raise TypeError, mkETL b s (mkIter ds bs rest') n),
       advance (length (j :: idx)) g).
Proof.
  intros Hin.
  destruct (next_indices_pending ds bs i rest) as (j & idx & rest' & Hn & Happ).
  exists j, idx, rest'. split; [exact Happ|]. split; [exact Hn|].
  unfold next_batch, next. cbn [loader]. rewrite Hn. cbn [dataset].
  assert (Hidx : Forall (fun k => k < length (samples ds))%nat (j :: idx)).
  { rewrite <- Happ in Hin. apply Forall_app in Hin. apply Hin. }
  destruct (fetch_in_range scale_crop ds (j :: idx) g Hidx)
    as (batch & Hf & Hlen).
  rewrite Hf. destruct batch as [|x batch]; [discriminate Hlen|].
  reflexivity.
Qed.

Lemma next_batch_pending_cons (scale_crop : nat -> image -> image)
    (PicklingError : exn) (b s n : nat) (ds : ImageFolder) (bs i : nat)
    (rest : list nat) (g : rng) :
  (0 < bs)%nat ->
  Forall (fun k => k < length (samples ds))%nat (i :: rest) ->
  next_batch scale_crop PicklingError
      (mkETL b s (mkIter ds bs (i :: rest)) n) g =
    ((Raise TypeError, mkETL b s (mkIter ds bs (skipn bs (i :: rest))) n),
     advance (length (firstn bs (i :: rest))) g).
Proof.
  intros Hbs Hin.
  destruct (next_batch_pending scale_crop PicklingError b s n ds bs i rest g Hin)
    as (j & idx & rest' & _ & Hn & Hnb).
  rewrite next_indices_cons in Hn by exact Hbs.
  injection Hn as Hidx Hrest. rewrite Hnb, <- Hidx, <- Hrest. reflexivity.
Qed.

Lemma init_Ok (EmptyFolderError : exn) (g : rng) (files : list (image * nat))
    (bs size : nat) (self : t) :
  init EmptyFolderError g files bs size = Ok self ->
  (0 < bs)%nat /\ files <> [] /\
  self = mkETL bs size
           (mkIter (mkImageFolder files size) bs (seq 0 (length files)))
           (length files).
Proof.
  unfold init, ImageFolder_init, DataLoader, sampler.
  destruct files as [|f files]; [discriminate|].
  cbn [bind samples]. destruct (Nat.eqb_spec bs 0) as [E|NE];
    [discriminate|].
  cbn [bind]. intros H. injection H as <-.
  split; [lia|]. split; [discriminate | reflexivity].
Qed.

Lemma init_total (EmptyFolderError : exn) (g : rng)
    (files : list (image * nat)) (bs size : nat) :
  (0 < bs)%nat -> files <> [] ->
  init EmptyFolderError g files bs size =
  Ok (mkETL bs size
        (mkIter (mkImageFolder files size) bs (seq 0 (length files)))
        (length files)).
Proof.
  intros Hbs Hf. unfold init, ImageFolder_init, DataLoader, sampler.
  destruct files as [|f files]; [contradiction|].
  cbn [bind samples]. destruct (Nat.eqb_spec bs 0) as [E|NE]; [lia|].
  reflexivity.
Qed.

Lemma seq_in_range (n : nat) : Forall (fun k => k < n)%nat (seq 0 n).
Proof. apply Forall_forall. intros k Hk. apply in_seq in Hk. lia. Qed.

(** C6.  Over a folder of 10 images with [batch_size] 4 the pipeline is
    created, but [next_batch] returns no batch: each of the first three
    calls raises [TypeError] (the loader cannot collate the PIL images the
    transform yields, which has no [ToTensor]), consuming 4, 4 and 2
    indices; the fourth raises [StopIteration]. *)
Theorem next_batch_on_ten_images_raises_TypeError
    (scale_crop : nat -> image -> image) (EmptyFolderError PicklingError : exn)
    (g : rng) (files : list (image * nat)) (size : nat) :
  length files = 10%nat ->
  exists self,
    init EmptyFolderError g files 4 size = Ok self /\
    let c1 := next_batch scale_crop PicklingError self g in
    let c2 := next_batch scale_crop PicklingError (snd (fst c1)) (snd c1) in
    let c3 := next_batch scale_crop PicklingError (snd (fst c2)) (snd c2) in
    let c4 := next_batch scale_crop PicklingError (snd (fst c3)) (snd c3) in
    fst (fst c1) = Raise TypeError /\
    fst (fst c2) = Raise TypeError /\
    fst (fst c3) = Raise TypeError /\
    fst (fst c4) = Raise StopIteration.
Proof.
  intros Hlen.
  assert (Hne : files <> []) by (intros ->; discriminate Hlen).
  eexists. split; [apply init_total; [lia | exact Hne]|].
  rewrite Hlen. cbn [seq]. cbv zeta.
  assert (Hin : forall l, incl l (seq 0 10) ->
            Forall (fun k => k < length (samples (mkImageFolder files size)))%nat l).
  { intros l Hl. apply Forall_forall. intros k Hk. apply Hl in Hk.
    apply in_seq in Hk. simpl. lia. }
  rewrite next_batch_pending_cons
    by (try lia; apply Hin; intros k Hk; exact Hk).
  cbn [fst snd skipn].
  rewrite next_batch_pending_cons
    by (try lia; apply Hin; intros k Hk; simpl in *; tauto).
  cbn [fst snd skipn].
  rewrite next_batch_pending_cons
    by (try lia; apply Hin; intros k Hk; simpl in *; tauto).
  cbn [fst snd skipn].
  rewrite next_batch_exhausted by reflexivity.
  repeat split; reflexivity.
Qed.

Lemma next_batch_on_ten_images_raises_TypeError_witness :
  length sample_folder = 10%nat /\
  init sample_EmptyFolderError rng_zero sample_folder 4 64
    = Ok sample_pipeline /\
  fst (fst (next_batch sample_scale_crop sample_PicklingError
              sample_pipeline rng_zero)) = Raise TypeError.
Proof.
  split; [reflexivity|]. split; [reflexivity|].
  destruct (next_batch_on_ten_images_raises_TypeError
              sample_scale_crop sample_EmptyFolderError sample_PicklingError
              rng_zero sample_folder 64 eq_refl) as (self & Hinit & H).
  assert (Hs : self = sample_pipeline).
  { assert (Hi : init sample_EmptyFolderError rng_zero sample_folder 4 64
                 = Ok sample_pipeline) by reflexivity.
    rewrite Hi in Hinit. now injection Hinit. }
  subst self. exact (proj1 H).
Defined.




End ETL_facts.

(** ** The generator network *)

Module Generator_facts.

Import Generator Lra.
Local Open Scope R_scope.

Local Abbreviation Rtanh := Rtrigo_def.tanh.

(** *** The result monad, continued *)

Lemma bind_Raise {A B : Type} (m : result A) (f : A -> result B) (e : exn) :
  bind m f = Raise e ->
  m = Raise e \/ exists a, m = Ok a /\ f a = Raise e.
Proof.
  destruct m as [a|e']; simpl; intros H.
  - right. exists a. split; [reflexivity | exact H].
  - left. injection H as ->. reflexivity.
Qed.

(** *** The hyperbolic tangent *)

Lemma cosh_pos (x : R) : 0 < cosh x.
Proof.
  unfold cosh. pose proof (exp_pos x). pose proof (exp_pos (- x)). lra.
Qed.

Lemma tanh_bounds (x : R) : -1 < Rtanh x < 1.
Proof.
  unfold Rtanh. pose proof (cosh_pos x) as Hc.
  assert (Hs : - cosh x < sinh x < cosh x).
  { unfold sinh, cosh in *.
    pose proof (exp_pos x). pose proof (exp_pos (- x)). lra. }
  split.
  - apply (Rmult_lt_reg_r (cosh x)); [exact Hc|].
    unfold Rdiv. rewrite Rmult_assoc, Rinv_l by lra. lra.
  - apply (Rmult_lt_reg_r (cosh x)); [exact Hc|].
    unfold Rdiv. rewrite Rmult_assoc, Rinv_l by lra. lra.
Qed.

Lemma tanh_increasing (x y : R) : x < y -> Rtanh x < Rtanh y.
Proof.
  intros Hxy.
  pose proof (cosh_pos x) as Hcx. pose proof (cosh_pos y) as Hcy.
  assert (H : sinh x * cosh y < sinh y * cosh x).
  { unfold sinh, cosh. rewrite !exp_Ropp.
    pose proof (exp_pos x) as Hx. pose proof (exp_pos y) as Hy.
    pose proof (exp_increasing x y Hxy) as Hlt.
    assert (Hq : exp x * / exp y < exp y * / exp x).
    { apply (Rmult_lt_reg_r (exp x * exp y)); [nra|].
      replace (exp x * / exp y * (exp x * exp y)) with (exp x * exp x)
        by (field; lra).
      replace (exp y * / exp x * (exp x * exp y)) with (exp y * exp y)
        by (field; lra).
      nra. }
    nra. }
  unfold Rtanh.
  apply (Rmult_lt_reg_r (cosh x * cosh y)); [nra|].
  replace (sinh x / cosh x * (cosh x * cosh y)) with (sinh x * cosh y)
    by (field; lra).
  replace (sinh y / cosh y * (cosh x * cosh y)) with (sinh y * cosh x)
    by (field; lra).
  exact H.
Qed.

Lemma tanh_tanh_neq (x : R) : 1 <= x -> Rtanh (Rtanh x) <> Rtanh x.
Proof.
  intros Hx. pose proof (tanh_bounds x) as [_ Hb].
  pose proof (tanh_increasing (Rtanh x) x ltac:(lra)). lra.
Qed.

(** *** Sums *)

Lemma rsum_zero (n : nat) (f : nat -> R) :
  (forall i, f i = 0) -> rsum n f = 0.
Proof.
  intros Hf. induction n as [|n IH]; simpl; [reflexivity|].
  rewrite IH, Hf. lra.
Qed.

(** *** The tensor operations *)

Lemma cat1_Ok (a b t : Tensor) :
  cat1 a b = Ok t ->
  size0 a = size0 b /\ size2 a = size2 b /\ size3 a = size3 b /\
  t = mkTensor (size0 a) (size1 a + size1 b) (size2 a) (size3 a)
        (fun n c h w =>
           if Nat.ltb c (size1 a) then item a n c h w
           else item b n (c - size1 a) h w).
Proof.
  unfold cat1.
  destruct (Nat.eqb_spec (size0 a) (size0 b));
    destruct (Nat.eqb_spec (size2 a) (size2 b));
    destruct (Nat.eqb_spec (size3 a) (size3 b));
    simpl; intros H; try discriminate H.
  injection H as <-. auto.
Qed.

Lemma cat1_total (a b : Tensor) :
  size0 a = size0 b -> size2 a = size2 b -> size3 a = size3 b ->
  cat1 a b =
  Ok (mkTensor (size0 a) (size1 a + size1 b) (size2 a) (size3 a)
        (fun n c h w =>
           if Nat.ltb c (size1 a) then item a n c h w
           else item b n (c - size1 a) h w)).
Proof.
  intros H0 H2 H3. unfold cat1.
  rewrite H0, H2, H3, !Nat.eqb_refl. reflexivity.
Qed.

Lemma cat1_Raise (a b : Tensor) (e : exn) :
  cat1 a b = Raise e -> e = RuntimeError.
Proof.
  unfold cat1.
  destruct (_ && _)%bool; intros H; [discriminate H | now injection H].
Qed.


Lemma conv2d_Ok (cv : Conv2d) (x z : Tensor) :
  conv2d cv x = Ok z ->
  size1 x = in_channels cv /\
  (kernel_size cv <= size2 x + 2 * padding cv)%nat /\
  (kernel_size cv <= size3 x + 2 * padding cv)%nat /\
  size0 z = size0 x /\ size1 z = out_channels cv /\
  size2 z = (size2 x + 2 * padding cv - (kernel_size cv - 1))%nat /\
  size3 z = (size3 x + 2 * padding cv - (kernel_size cv - 1))%nat /\
  forall n o h w,
    item z n o h w =
    bias cv o +
    rsum (in_channels cv) (fun i =>
      rsum (kernel_size cv) (fun kh =>
        rsum (kernel_size cv) (fun kw =>
          weight cv o i kh kw
          * padded (padding cv) x n i (h + kh) (w + kw)))).
Proof.
  unfold conv2d.
  destruct (Nat.eqb_spec (size1 x) (in_channels cv));
    destruct (Nat.leb_spec (kernel_size cv) (size2 x + 2 * padding cv));
    destruct (Nat.leb_spec (kernel_size cv) (size3 x + 2 * padding cv));
    simpl; intros Hz; try discriminate Hz.
  injection Hz as <-. simpl. repeat split; auto.
Qed.

Lemma conv2d_total (cv : Conv2d) (x : Tensor) :
  size1 x = in_channels cv ->
  (kernel_size cv <= size2 x + 2 * padding cv)%nat ->
  (kernel_size cv <= size3 x + 2 * padding cv)%nat ->
  exists z, conv2d cv x = Ok z.
Proof.
  intros H1 H2 H3. unfold conv2d.
  apply Nat.eqb_eq in H1. apply Nat.leb_le in H2, H3.
  rewrite H1, H2, H3. simpl. eexists. reflexivity.
Qed.

Lemma conv2d_Raise (cv : Conv2d) (x : Tensor) (e : exn) :
  conv2d cv x = Raise e -> e = RuntimeError.
Proof.
  unfold conv2d.
  destruct (_ && _)%bool; intros H; [discriminate H | now injection H].
Qed.

Lemma conv2d_mismatch (cv : Conv2d) (x : Tensor) :
  size1 x <> in_channels cv -> conv2d cv x = Raise RuntimeError.
Proof.
  intros H. unfold conv2d. apply Nat.eqb_neq in H. rewrite H. reflexivity.
Qed.

Lemma batch_norm_Ok (tr : bool) (bn : BatchNorm2d) (x y : Tensor) :
  batch_norm tr bn x = Ok y ->
  size1 x = num_features bn /\
  size0 y = size0 x /\ size1 y = size1 x /\
  size2 y = size2 x /\ size3 y = size3 x /\
  (tr = true -> ~ single_value x).
Proof.
  unfold batch_norm, single_value.
  destruct (Nat.eqb_spec (size0 x * size2 x * size3 x) 1) as [E1|N1];
    destruct tr; cbn [andb]; intros Hy; try discriminate Hy;
    (destruct (Nat.eqb_spec (size1 x) (num_features bn)) as [E|NE];
     [|discriminate Hy]);
    injection Hy as <-; simpl; repeat split; auto; intros Hf;
    discriminate Hf.
Qed.

Lemma batch_norm_total (tr : bool) (bn : BatchNorm2d) (x : Tensor) :
  size1 x = num_features bn ->
  tr = false \/ ~ single_value x ->
  exists y, batch_norm tr bn x = Ok y.
Proof.
  intros H Hmode. unfold batch_norm, single_value in *.
  apply Nat.eqb_eq in H. rewrite H.
  destruct Hmode as [-> | Hs].
  - cbn [andb]. eexists. reflexivity.
  - apply Nat.eqb_neq in Hs. rewrite Hs, andb_false_r.
    eexists. reflexivity.
Qed.

Lemma batch_norm_Raise (tr : bool) (bn : BatchNorm2d) (x : Tensor) (e : exn) :
  batch_norm tr bn x = Raise e ->
  e = RuntimeError \/ (e = ValueError /\ tr = true /\ single_value x).
Proof.
  unfold batch_norm, single_value.
  destruct (Nat.eqb_spec (size0 x * size2 x * size3 x) 1) as [E1|N1];
    destruct tr; cbn [andb]; intros He.
  - right. injection He as <-. auto.
  - left. destruct (Nat.eqb _ _); [discriminate He | now injection He].
  - left. destruct (Nat.eqb _ _); [discriminate He | now injection He].
  - left. destruct (Nat.eqb _ _); [discriminate He | now injection He].
Qed.

(** *** One block *)

Lemma getattr_conv_init (ps : Parameters) (tr : bool) (i : nat) :
  (1 <= i <= 6)%nat ->
  exists cv,
    getattr_conv (init ps tr) i = Ok cv /\
    in_channels cv = block_in_channels i /\
    out_channels cv = block_out_channels i /\
    kernel_size cv = (2 * padding cv + 1)%nat /\
    weight cv = conv_weight ps i /\ bias cv = conv_bias ps i.
Proof.
  intros Hi.
  destruct i as [|[|[|[|[|[|[|i]]]]]]]; try lia;
    eexists; cbn; repeat split; reflexivity.
Qed.

Lemma getattr_norm_init (ps : Parameters) (tr : bool) (i : nat) :
  (1 <= i <= 5)%nat ->
  exists bn,
    getattr_norm (init ps tr) i = Ok bn /\
    num_features bn = block_out_channels i.
Proof.
  intros Hi.
  destruct i as [|[|[|[|[|[|i]]]]]]; try lia;
    eexists; cbn; split; reflexivity.
Qed.

Lemma conv_block_inv (self : t) (x v : Tensor) (i : nat) (last : bool)
    (y : Tensor) :
  conv_block self x v i last = Ok y ->
  exists xc cv z,
    cat1 x v = Ok xc /\ getattr_conv self i = Ok cv /\ conv2d cv xc = Ok z /\
    size0 y = size0 z /\ size1 y = size1 z /\
    size2 y = size2 z /\ size3 y = size3 z /\
    (last = true -> y = tanh z) /\
    (last = false ->
     exists bn w, getattr_norm self i = Ok bn /\
                  batch_norm (training self) bn z = Ok w /\ y = relu w).
Proof.
  unfold conv_block. intros H.
  apply bind_Ok in H as (xc & Hc & H).
  apply bind_Ok in H as (cv & Hg & H).
  apply bind_Ok in H as (z & Hz & H).
  exists xc, cv, z. do 3 (split; [assumption|]).
  destruct last; simpl in H.
  - injection H as <-. simpl. repeat split; try reflexivity.
    intros Hf. discriminate Hf.
  - apply bind_Ok in H as (bn & Hn & H).
    apply bind_Ok in H as (w & Hw & H).
    injection H as <-.
    destruct (batch_norm_Ok _ _ _ _ Hw) as (_ & S0 & S1 & S2 & S3 & _).
    simpl. repeat split; try assumption.
    + intros Hf. discriminate Hf.
    + intros _. exists bn, w. auto.
Qed.

(** What a block of the generator asks of its input and what it returns:
    the input and [v] agree on batch and spatial sizes, their channels add
    up to the input channels of the block, no spatial axis is empty, and
    the output has the block's output channels on the same batch and
    spatial sizes.  A normalized block in training mode also asks for more
    than one value per channel. *)
Lemma conv_block_init_Ok (ps : Parameters) (tr : bool) (x v : Tensor)
    (i : nat) (y : Tensor) :
  (1 <= i <= 6)%nat ->
  conv_block (init ps tr) x v i (Nat.eqb i 6) = Ok y ->
  size0 x = size0 v /\ size2 x = size2 v /\ size3 x = size3 v /\
  (size1 x + size1 v)%nat = block_in_channels i /\
  (1 <= size2 x)%nat /\ (1 <= size3 x)%nat /\
  size0 y = size0 x /\ size1 y = block_out_channels i /\
  size2 y = size2 x /\ size3 y = size3 x /\
  (tr = true -> i <> 6%nat -> ~ single_value v).
Proof.
  intros Hi H.
  apply conv_block_inv in H
    as (xc & cv & z & Hc & Hg & Hz & S0 & S1 & S2 & S3 & _ & Hnot).
  destruct (getattr_conv_init ps tr i Hi)
    as (cv' & Hg' & Hin & Hout & Hk & _).
  rewrite Hg' in Hg. injection Hg as ->.
  apply cat1_Ok in Hc as (C0 & C2 & C3 & ->).
  apply conv2d_Ok in Hz as (Z1 & Z2 & Z3 & Z4 & Z5 & Z6 & Z7 & _).
  simpl in *. rewrite Hk in *.
  assert (Hsingle : tr = true -> i <> 6%nat -> ~ single_value v).
  { intros Htr Hi6. apply Nat.eqb_neq in Hi6.
    destruct (Hnot Hi6) as (bn & w & _ & Hbn & _).
    apply batch_norm_Ok in Hbn as (_ & _ & _ & _ & _ & Hs).
    specialize (Hs Htr). unfold single_value in *.
    replace (size0 v) with (size0 z) by lia.
    replace (size2 v) with (size2 z) by lia.
    replace (size3 v) with (size3 z) by lia. exact Hs. }
  repeat split; try lia. exact Hsingle.
Qed.

Lemma conv_block_init_total (ps : Parameters) (tr : bool) (x v : Tensor)
    (i : nat) :
  (1 <= i <= 6)%nat ->
  size0 x = size0 v -> size2 x = size2 v -> size3 x = size3 v ->
  (size1 x + size1 v)%nat = block_in_channels i ->
  (1 <= size2 x)%nat -> (1 <= size3 x)%nat ->
  tr = false \/ ~ single_value v ->
  exists y, conv_block (init ps tr) x v i (Nat.eqb i 6) = Ok y.
Proof.
  intros Hi H0 H2 H3 H1 Hh Hw Hmode.
  destruct (getattr_conv_init ps tr i Hi)
    as (cv & Hg & Hin & Hout & Hk & _).
  unfold conv_block.
  rewrite (cat1_total x v H0 H2 H3). cbn [bind].
  rewrite Hg. cbn [bind].
  match goal with
  | |- context [conv2d cv ?xc] =>
      destruct (conv2d_total cv xc) as [z Hz];
        [simpl; lia | simpl; lia | simpl; lia |]
  end.
  rewrite Hz. cbn [bind].
  destruct (Nat.eqb_spec i 6) as [E|NE]; simpl.
  - eexists. reflexivity.
  - destruct (getattr_norm_init ps tr i ltac:(lia)) as (bn & Hn & Hf).
    rewrite Hn. cbn [bind].
    apply conv2d_Ok in Hz as (_ & _ & _ & Z0 & Z1 & Z2 & Z3 & _).
    simpl in Z0, Z2, Z3. rewrite Hk in Z2, Z3.
    destruct (batch_norm_total tr bn z) as [w Hw']; [congruence| |].
    { destruct Hmode as [Hm|Hm]; [left; exact Hm | right].
      unfold single_value in *.
      replace (size0 z) with (size0 v) by lia.
      replace (size2 z) with (size2 v) by lia.
      replace (size3 z) with (size3 v) by lia. exact Hm. }
    rewrite Hw'. cbn [bind]. eexists. reflexivity.
Qed.

Lemma conv_block_init_Raise (ps : Parameters) (tr : bool) (x v : Tensor)
    (i : nat) (e : exn) :
  (1 <= i <= 6)%nat ->
  conv_block (init ps tr) x v i (Nat.eqb i 6) = Raise e ->
  e = RuntimeError \/ (e = ValueError /\ tr = true /\ single_value v).
Proof.
  intros Hi H. unfold conv_block in H.
  apply bind_Raise in H as [H|(xc & Hc & H)];
    [left; now apply cat1_Raise in H|].
  destruct (getattr_conv_init ps tr i Hi) as (cv & Hg & _ & _ & Hk & _).
  rewrite Hg in H. cbn [bind] in H.
  apply bind_Raise in H as [H|(z & Hz & H)];
    [left; now apply conv2d_Raise in H|].
  destruct (Nat.eqb_spec i 6) as [E|NE]; simpl in H; [discriminate H|].
  destruct (getattr_norm_init ps tr i ltac:(lia)) as (bn & Hn & _).
  rewrite Hn in H. cbn [bind] in H.
  apply bind_Raise in H as [H|(w & _ & H)]; [|discriminate H].
  apply batch_norm_Raise in H as [H|(He & Htr & Hs)]; [left; exact H|].
  right. split; [exact He|]. split; [exact Htr|].
  apply cat1_Ok in Hc as (C0 & C2 & C3 & ->).
  apply conv2d_Ok in Hz as (_ & Z2 & Z3 & Z0 & _ & Z6 & Z7 & _).
  simpl in *. rewrite Hk in *. unfold single_value in *.
  replace (size0 v) with (size0 z) by lia.
  replace (size2 v) with (size2 z) by lia.
  replace (size3 v) with (size3 z) by lia. exact Hs.
Qed.

(** *** The loop over the blocks *)

Lemma fold_blocks_Raise (self : t) (v : Tensor) (l : list nat) (e : exn) :
  fold_left
    (fun acc i => x <- acc ;; conv_block self x v i (Nat.eqb i 6))
    l (Raise e) = Raise e.
Proof. induction l as [|i l IH]; simpl; [reflexivity | exact IH]. Qed.

Lemma run_blocks_cons (self : t) (x v : Tensor) (i : nat) (l : list nat) :
  run_blocks self x v (i :: l) =
  y <- conv_block self x v i (Nat.eqb i 6) ;; run_blocks self y v l.
Proof.
  unfold run_blocks. simpl.
  destruct (conv_block self x v i (Nat.eqb i 6)) as [y|e]; simpl;
    [reflexivity | apply fold_blocks_Raise].
Qed.

Lemma run_blocks_snoc (self : t) (x v : Tensor) (l : list nat) (i : nat) :
  run_blocks self x v (l ++ [i]) =
  y <- run_blocks self x v l ;; conv_block self y v i (Nat.eqb i 6).
Proof. unfold run_blocks. rewrite fold_left_app. reflexivity. Qed.

Lemma run_blocks_Raise (ps : Parameters) (tr : bool) (v : Tensor)
    (l : list nat) (x : Tensor) (e : exn) :
  Forall (fun i => 1 <= i <= 6)%nat l ->
  run_blocks (init ps tr) x v l = Raise e ->
  e = RuntimeError \/ (e = ValueError /\ tr = true /\ single_value v).
Proof.
  intros Hl. revert x. induction Hl as [|i l Hi Hl IH]; intros x H.
  - discriminate H.
  - rewrite run_blocks_cons in H.
    apply bind_Raise in H as [H|(y & _ & H)].
    + now apply conv_block_init_Raise in H.
    + now apply IH in H.
Qed.

Lemma block_step (ps : Parameters) (tr : bool) (v x : Tensor) (i : nat) :
  (1 <= i <= 6)%nat ->
  size1 v = 1%nat -> (1 <= size2 v)%nat -> (1 <= size3 v)%nat ->
  tr = false \/ ~ single_value v ->
  follows v (block_in_channels i - 1) x ->
  exists y,
    conv_block (init ps tr) x v i (Nat.eqb i 6) = Ok y /\
    follows v (block_out_channels i) y.
Proof.
  intros Hi Hv Hh Hw Hmode (F0 & F1 & F2 & F3).
  assert (Hin : (1 <= block_in_channels i)%nat)
    by (destruct i as [|[|[|[|[|[|[|i]]]]]]]; simpl; lia).
  destruct (conv_block_init_total ps tr x v i Hi) as [y Hy];
    try lia; try exact Hmode.
  exists y. split; [exact Hy|].
  apply conv_block_init_Ok in Hy; [|exact Hi].
  unfold follows. intuition lia.
Qed.

Lemma run_blocks_1_5_total (ps : Parameters) (tr : bool) (v x : Tensor) :
  size1 v = 1%nat -> (1 <= size2 v)%nat -> (1 <= size3 v)%nat ->
  tr = false \/ ~ single_value v ->
  follows v 2 x ->
  exists y,
    run_blocks (init ps tr) x v (seq 1 5) = Ok y /\ follows v 32 y.
Proof.
  intros Hv Hh Hw Hm F. cbn [seq].
  destruct (block_step ps tr v x 1 ltac:(lia) Hv Hh Hw Hm F)
    as (x1 & E1 & F1).
  destruct (block_step ps tr v x1 2 ltac:(lia) Hv Hh Hw Hm F1)
    as (x2 & E2 & F2).
  destruct (block_step ps tr v x2 3 ltac:(lia) Hv Hh Hw Hm F2)
    as (x3 & E3 & F3).
  destruct (block_step ps tr v x3 4 ltac:(lia) Hv Hh Hw Hm F3)
    as (x4 & E4 & F4).
  destruct (block_step ps tr v x4 5 ltac:(lia) Hv Hh Hw Hm F4)
    as (x5 & E5 & F5).
  exists x5. split; [|exact F5].
  rewrite run_blocks_cons, E1. cbn [bind].
  rewrite run_blocks_cons, E2. cbn [bind].
  rewrite run_blocks_cons, E3. cbn [bind].
  rewrite run_blocks_cons, E4. cbn [bind].
  rewrite run_blocks_cons, E5. reflexivity.
Qed.

Lemma run_blocks_1_5_Ok (ps : Parameters) (tr : bool) (v x y : Tensor) :
  run_blocks (init ps tr) x v (seq 1 5) = Ok y ->
  size1 v = 1%nat /\ (1 <= size2 v)%nat /\ (1 <= size3 v)%nat /\
  follows v 2 x /\ follows v 32 y /\ (tr = true -> ~ single_value v).
Proof.
  cbn [seq]. intros H.
  rewrite run_blocks_cons in H. apply bind_Ok in H as (x1 & E1 & H).
  rewrite run_blocks_cons in H. apply bind_Ok in H as (x2 & E2 & H).
  rewrite run_blocks_cons in H. apply bind_Ok in H as (x3 & E3 & H).
  rewrite run_blocks_cons in H. apply bind_Ok in H as (x4 & E4 & H).
  rewrite run_blocks_cons in H. apply bind_Ok in H as (x5 & E5 & H).
  injection H as <-.
  apply conv_block_init_Ok in E1; [|lia].
  apply conv_block_init_Ok in E2; [|lia].
  apply conv_block_init_Ok in E3; [|lia].
  apply conv_block_init_Ok in E4; [|lia].
  apply conv_block_init_Ok in E5; [|lia].
  assert (Hs : tr = true -> ~ single_value v).
  { intros Htr. destruct E1 as (_ & _ & _ & _ & _ & _ & _ & _ & _ & _ & Hs).
    apply Hs; [exact Htr | discriminate]. }
  unfold follows. simpl in *. intuition lia.
Qed.

(** *** The forward pass *)

(** [forward] is: the output of [conv6], [tanh] applied to it twice (once
    by [conv_block], once more by [forward]), and [v] concatenated. *)
Lemma forward_eq (self : t) (noise v : Tensor) :
  forward self noise v =
  z <- conv6_output self noise v ;; cat1 (tanh (tanh z)) v.
Proof.
  unfold forward, conv6_output, blocks.
  destruct (cat1 v noise) as [x0|e]; cbn [bind]; [|reflexivity].
  change (seq 1 6) with (seq 1 5 ++ [6%nat]). rewrite run_blocks_snoc.
  destruct (run_blocks self x0 v (seq 1 5)) as [x5|e]; cbn [bind];
    [|reflexivity].
  unfold conv_block. cbn [getattr_conv Nat.eqb negb].
  destruct (cat1 x5 v) as [xc|e]; cbn [bind]; [|reflexivity].
  destruct (conv2d (conv6 self) xc) as [z|e]; cbn [bind]; reflexivity.
Qed.

Lemma conv6_output_Ok (ps : Parameters) (tr : bool) (noise v z : Tensor) :
  conv6_output (init ps tr) noise v = Ok z ->
  valid_input noise v /\ follows v 2 z.
Proof.
  unfold conv6_output. intros H.
  apply bind_Ok in H as (x0 & E0 & H).
  apply bind_Ok in H as (x5 & E5 & H).
  apply bind_Ok in H as (xc & Ec & H).
  apply run_blocks_1_5_Ok in E5 as (Hv & Hh & Hw & F0 & F5 & _).
  apply cat1_Ok in E0 as (A0 & A2 & A3 & ->).
  apply cat1_Ok in Ec as (B0 & B2 & B3 & ->).
  apply conv2d_Ok in H as (_ & _ & _ & Z0 & Z1 & Z2 & Z3 & _).
  unfold follows, valid_input in *. simpl in *. intuition lia.
Qed.

Lemma conv6_output_Ok_training (ps : Parameters) (noise v z : Tensor) :
  conv6_output (init ps true) noise v = Ok z -> ~ single_value v.
Proof.
  unfold conv6_output. intros H.
  apply bind_Ok in H as (x0 & E0 & H).
  apply bind_Ok in H as (x5 & E5 & H).
  apply run_blocks_1_5_Ok in E5 as (_ & _ & _ & _ & _ & Hs).
  exact (Hs eq_refl).
Qed.

Lemma conv6_output_total (ps : Parameters) (tr : bool) (noise v : Tensor) :
  valid_input noise v ->
  tr = false \/ ~ single_value v ->
  exists z, conv6_output (init ps tr) noise v = Ok z /\ follows v 2 z.
Proof.
  intros (Hn & Hv & V0 & V2 & V3 & Hh & Hw) Hm.
  unfold conv6_output.
  rewrite (cat1_total v noise) by congruence. cbn [bind].
  match goal with
  | |- context [run_blocks _ ?x0 v _] =>
      destruct (run_blocks_1_5_total ps tr v x0 Hv Hh Hw Hm)
        as (x5 & E5 & F5);
        [unfold follows; simpl; intuition lia|]
  end.
  rewrite E5. cbn [bind].
  destruct F5 as (F0 & F1 & F2 & F3).
  rewrite (cat1_total x5 v F0 F2 F3). cbn [bind].
  match goal with
  | |- context [conv2d ?cv ?xc] =>
      destruct (conv2d_total cv xc) as [z Hz];
        [simpl; lia | simpl; lia | simpl; lia |]
  end.
  exists z. split; [exact Hz|].
  apply conv2d_Ok in Hz as (_ & _ & _ & Z0 & Z1 & Z2 & Z3 & _).
  unfold follows. simpl in *. intuition lia.
Qed.

(** The tensor [forward] returns, over the output of [conv6]. *)
Lemma forward_Ok (ps : Parameters) (tr : bool) (noise v out : Tensor) :
  forward (init ps tr) noise v = Ok out ->
  valid_input noise v /\
  exists z,
    conv6_output (init ps tr) noise v = Ok z /\ follows v 2 z /\
    follows v 3 out /\
    forall n c h w,
      item out n c h w =
      if Nat.ltb c 2 then Rtanh (Rtanh (item z n c h w))
      else item v n (c - 2) h w.
Proof.
  rewrite forward_eq. intros H.
  apply bind_Ok in H as (z & Ez & H).
  destruct (conv6_output_Ok ps tr noise v z Ez) as (Hvalid & F).
  split; [exact Hvalid|]. exists z. split; [exact Ez|]. split; [exact F|].
  apply cat1_Ok in H as (C0 & C2 & C3 & ->).
  destruct F as (F0 & F1 & F2 & F3).
  destruct Hvalid as (Hn & Hv & _).
  unfold follows. simpl in *. rewrite F1, Hv.
  repeat split; lia.
Qed.

Lemma forward_Ok_training (ps : Parameters) (noise v out : Tensor) :
  forward (init ps true) noise v = Ok out -> ~ single_value v.
Proof.
  rewrite forward_eq. intros H.
  apply bind_Ok in H as (z & Ez & _).
  exact (conv6_output_Ok_training ps noise v z Ez).
Qed.

Lemma forward_total (ps : Parameters) (tr : bool) (noise v : Tensor) :
  valid_input noise v ->
  tr = false \/ ~ single_value v ->
  exists out, forward (init ps tr) noise v = Ok out.
Proof.
  intros Hvalid Hm. rewrite forward_eq.
  destruct (conv6_output_total ps tr noise v Hvalid Hm)
    as (z & Ez & F0 & F1 & F2 & F3).
  rewrite Ez. cbn [bind].
  rewrite cat1_total by (simpl; assumption). eexists. reflexivity.
Qed.

Lemma forward_Raise (ps : Parameters) (tr : bool) (noise v : Tensor) (e : exn) :
  forward (init ps tr) noise v = Raise e ->
  e = RuntimeError \/ (e = ValueError /\ tr = true /\ single_value v).
Proof.
  rewrite forward_eq. intros H.
  apply bind_Raise in H as [H|(z & _ & H)];
    [|left; now apply cat1_Raise in H].
  unfold conv6_output in H.
  apply bind_Raise in H as [H|(x0 & _ & H)];
    [left; now apply cat1_Raise in H|].
  apply bind_Raise in H as [H|(x5 & _ & H)].
  { apply run_blocks_Raise in H; [exact H|].
    cbn [seq]. repeat constructor; lia. }
  apply bind_Raise in H as [H|(xc & _ & H)];
    [left; now apply cat1_Raise in H|].
  left. now apply conv2d_Raise in H.
Qed.

(** An input that is not valid makes [forward] raise. *)
Lemma forward_invalid (ps : Parameters) (tr : bool) (noise v : Tensor) :
  ~ valid_input noise v ->
  exists e, forward (init ps tr) noise v = Raise e.
Proof.
  intros Hinv.
  destruct (forward (init ps tr) noise v) as [out|e] eqn:E.
  - exfalso. apply Hinv. now apply forward_Ok in E.
  - exists e. reflexivity.
Qed.

(** In inference mode what it raises is [RuntimeError]. *)
Lemma forward_invalid_eval (ps : Parameters) (noise v : Tensor) :
  ~ valid_input noise v ->
  forward (init ps false) noise v = Raise RuntimeError.
Proof.
  intros Hinv. destruct (forward_invalid ps false noise v Hinv) as [e He].
  rewrite He. apply forward_Raise in He as [->|(_ & Hf & _)];
    [reflexivity | discriminate Hf].
Qed.


(** Channel counts that do not add up to the 3 input channels of [conv1]
    make the convolution of block 1 raise [RuntimeError]. *)
Lemma conv_block_1_mismatch (ps : Parameters) (tr : bool) (x0 v : Tensor) :
  (size1 x0 + size1 v)%nat <> 3%nat ->
  conv_block (init ps tr) x0 v 1 (Nat.eqb 1 6) = Raise RuntimeError.
Proof.
  intros H. unfold conv_block.
  destruct (cat1 x0 v) as [xc|e] eqn:Ec; cbn [bind].
  - apply cat1_Ok in Ec as (_ & _ & _ & ->).
    cbn [getattr_conv bind]. rewrite conv2d_mismatch; [reflexivity|].
    simpl. exact H.
  - apply cat1_Raise in Ec. now subst.
Qed.

Lemma forward_conv1_mismatch (ps : Parameters) (tr : bool) (noise v : Tensor) :
  (size1 v + size1 noise + size1 v)%nat <> 3%nat ->
  forward (init ps tr) noise v = Raise RuntimeError.
Proof.
  intros H. unfold forward.
  destruct (cat1 v noise) as [x0|e] eqn:E0; cbn [bind].
  - apply cat1_Ok in E0 as (_ & _ & _ & ->).
    unfold blocks. cbn [seq]. rewrite run_blocks_cons.
    rewrite conv_block_1_mismatch by (simpl; exact H). reflexivity.
  - apply cat1_Raise in E0. now subst.
Qed.

Lemma sample_input_valid : valid_input sample_noise sample_v.
Proof. unfold valid_input. simpl. repeat split; lia. Qed.

Lemma sample_forward_returns :
  exists out, forward sample_generator sample_noise sample_v = Ok out.
Proof.
  apply forward_total; [exact sample_input_valid | left; reflexivity].
Qed.

Lemma conv6_output_item (self : t) (noise v z : Tensor) :
  conv6_output self noise v = Ok z ->
  (forall o i kh kw, weight (conv6 self) o i kh kw = 0) ->
  forall n o h w, item z n o h w = bias (conv6 self) o.
Proof.
  unfold conv6_output. intros H Hw n o h w.
  apply bind_Ok in H as (x0 & _ & H).
  apply bind_Ok in H as (x5 & _ & H).
  apply bind_Ok in H as (xc & _ & H).
  apply conv2d_Ok in H as (_ & _ & _ & _ & _ & _ & _ & Hitem).
  rewrite Hitem, rsum_zero; [lra|].
  intros i. apply rsum_zero. intros kh. apply rsum_zero. intros kw.
  rewrite Hw. lra.
Qed.

(** C1.  The code applies [tanh] twice after the convolution of block 6.
    On the sample input (all weights 0, bias of [conv6] 1) the convolution
    of block 6 returns 1, and the first chroma entry of what [forward]
    returns is [tanh (tanh 1)], which is not [tanh 1]. *)
Theorem forward_applies_tanh_twice :
  exists out z,
    forward sample_generator sample_noise sample_v = Ok out /\
    conv6_output sample_generator sample_noise sample_v = Ok z /\
    item z 0 0 0 0 = 1 /\
    item out 0 0 0 0 = Rtanh (Rtanh (item z 0 0 0 0)) /\
    item out 0 0 0 0 <> Rtanh (item z 0 0 0 0).
Proof.
  destruct sample_forward_returns as [out Hout].
  destruct (forward_Ok _ _ _ _ _ Hout) as (_ & z & Hz & _ & _ & Hitem).
  exists out, z. split; [exact Hout|]. split; [exact Hz|].
  assert (Hone : item z 0 0 0 0 = 1).
  { rewrite (conv6_output_item _ _ _ _ Hz); [reflexivity|].
    intros. reflexivity. }
  split; [exact Hone|].
  rewrite Hitem. cbn [Nat.ltb Nat.leb]. split; [reflexivity|].
  rewrite Hone. apply tanh_tanh_neq. lra.
Qed.

(** C2.  Whenever [forward] returns, the third channel of what it returns
    is the luma tensor [v]: the same sizes and the same entries. *)
Theorem forward_luma_pass_through
    (ps : Parameters) (tr : bool) (noise v out : Tensor) :
  forward (init ps tr) noise v = Ok out ->
  tensor_eq (channels 2 1 out) v.
Proof.
  intros H.
  apply forward_Ok in H
    as ((_ & Hv & _) & z & _ & _ & (F0 & F1 & F2 & F3) & Hitem).
  unfold tensor_eq, channels. cbn [size0 size1 size2 size3 item].
  repeat split; try congruence.
  intros n c h w _ _ _ _. rewrite Hitem.
  destruct (Nat.ltb_spec (2 + c) 2) as [Hlt|Hge]; [lia|].
  f_equal. lia.
Qed.

Lemma forward_luma_pass_through_witness :
  exists out,
    forward sample_generator sample_noise sample_v = Ok out /\
    tensor_eq (channels 2 1 out) sample_v.
Proof.
  destruct sample_forward_returns as [out Hout].
  exists out. split; [exact Hout|].
  exact (forward_luma_pass_through sample_parameters false
           sample_noise sample_v out Hout).
Defined.

(** C3.  Whenever [forward] returns, every entry of the first two
    channels of what it returns lies in [-1, 1], and the spatial sizes of
    the output are those of the input. *)
Theorem forward_chroma_in_range
    (ps : Parameters) (tr : bool) (noise v out : Tensor) :
  forward (init ps tr) noise v = Ok out ->
  (forall n c h w, (c < 2)%nat -> -1 <= item out n c h w <= 1) /\
  size2 out = size2 noise /\ size3 out = size3 noise /\
  size2 out = size2 v /\ size3 out = size3 v.
Proof.
  intros H.
  apply forward_Ok in H
    as ((_ & _ & _ & V2 & V3 & _) & z & _ & _ & (F0 & F1 & F2 & F3) & Hitem).
  split; [|repeat split; congruence].
  intros n c h w Hc. rewrite Hitem.
  apply Nat.ltb_lt in Hc. rewrite Hc.
  pose proof (tanh_bounds (Rtanh (item z n c h w))). lra.
Qed.

Lemma forward_chroma_in_range_witness :
  exists out,
    forward sample_generator sample_noise sample_v = Ok out /\
    (forall n c h w, (c < 2)%nat -> -1 <= item out n c h w <= 1) /\
    size2 out = size2 sample_noise /\ size3 out = size3 sample_noise.
Proof.
  destruct sample_forward_returns as [out Hout].
  exists out. split; [exact Hout|].
  destruct (forward_chroma_in_range sample_parameters false
              sample_noise sample_v out Hout) as (Hr & H2 & H3 & _).
  auto.
Defined.




(** C9.  [forward] returns only when [noise] has exactly one channel; with
    any other channel count the call raises.  With a one-channel [v], the
    tensor handed to the convolution of block 1, which is declared with 3
    input channels, has [2 + C_noise] channels, so that with a channel
    count of the noise other than 1 that convolution raises
    [RuntimeError], and so does the call. *)
Theorem forward_needs_one_noise_channel
    (ps : Parameters) (tr : bool) (noise v : Tensor) :
  (forall out, forward (init ps tr) noise v = Ok out -> size1 noise = 1%nat) /\
  (size1 noise <> 1%nat ->
   exists e, forward (init ps tr) noise v = Raise e) /\
  (size1 v = 1%nat -> size1 noise <> 1%nat ->
   forward (init ps tr) noise v = Raise RuntimeError /\
   forall x0, cat1 v noise = Ok x0 ->
     conv_block (init ps tr) x0 v 1 (Nat.eqb 1 6) = Raise RuntimeError) /\
  (forall x0 xc,
      size1 v = 1%nat -> cat1 v noise = Ok x0 -> cat1 x0 v = Ok xc ->
      size1 xc = (2 + size1 noise)%nat) /\
  in_channels (conv1 (init ps tr)) = 3%nat.
Proof.
  split; [|split; [|split; [|split]]].
  - intros out H. apply forward_Ok in H as ((Hn & _) & _). exact Hn.
  - intros H. apply forward_invalid. unfold valid_input. intuition lia.
  - intros Hv Hn. split.
    + apply forward_conv1_mismatch. lia.
    + intros x0 H0. apply cat1_Ok in H0 as (_ & _ & _ & ->).
      apply conv_block_1_mismatch. simpl. lia.
  - intros x0 xc Hv H0 Hc.
    apply cat1_Ok in H0 as (_ & _ & _ & ->).
    apply cat1_Ok in Hc as (_ & _ & _ & ->). simpl. lia.
  - reflexivity.
Qed.

Lemma forward_needs_one_noise_channel_witness :
  size1 sample_v_16 = 1%nat /\ size1 sample_noise_3ch <> 1%nat /\
  forward sample_generator sample_noise_3ch sample_v_16 = Raise RuntimeError.
Proof.
  assert (Hv : size1 sample_v_16 = 1%nat) by reflexivity.
  assert (H : size1 sample_noise_3ch <> 1%nat) by (simpl; lia).
  split; [exact Hv|]. split; [exact H|].
  destruct (forward_needs_one_noise_channel sample_parameters false
              sample_noise_3ch sample_v_16) as (_ & _ & Hfail & _).
  exact (proj1 (Hfail Hv H)).
Defined.

End Generator_facts.

(** ** Further properties of the ETL pipeline *)

Module ETL_extra.

Import ETL ETL_facts Lqa.
Local Open Scope Q_scope.

(** X1.  [next_batch] never returns a batch.  On a pipeline with a
    positive batch size whose pending indices denote files of the folder,
    it raises [StopIteration] when no index is pending and [TypeError]
    otherwise. *)
Theorem next_batch_never_returns
    (scale_crop : nat -> image -> image) (PicklingError : exn)
    (self : t) (g : rng) :
  (0 < loader_batch_size (loader self))%nat ->
  indices_in_range (loader self) ->
  (sample_iter (loader self) = [] ->
   fst (fst (next_batch scale_crop PicklingError self g))
     = Raise StopIteration) /\
  (sample_iter (loader self) <> [] ->
   fst (fst (next_batch scale_crop PicklingError self g))
     = Raise TypeError).
Proof.
  intros _ Hin. split.
  - intros He. rewrite next_batch_exhausted by exact He. reflexivity.
  - destruct self as [b s [ds bs rest] n]. cbn [loader sample_iter].
    unfold indices_in_range in Hin. cbn [loader sample_iter dataset] in Hin.
    intros Hne. destruct rest as [|i rest]; [contradiction|].
    destruct (next_batch_pending scale_crop PicklingError b s n ds bs i rest
                g Hin) as (j & idx & rest' & _ & _ & ->).
    reflexivity.
Qed.

Lemma next_batch_never_returns_witness :
  (0 < loader_batch_size (loader sample_pipeline))%nat /\
  indices_in_range (loader sample_pipeline) /\
  fst (fst (next_batch sample_scale_crop sample_PicklingError
              sample_pipeline rng_zero)) = Raise TypeError.
Proof.
  assert (Hbs : (0 < loader_batch_size (loader sample_pipeline))%nat)
    by (simpl; lia).
  assert (H : indices_in_range (loader sample_pipeline))
    by (unfold indices_in_range; simpl; repeat constructor).
  split; [exact Hbs|]. split; [exact H|].
  apply (next_batch_never_returns sample_scale_crop sample_PicklingError
           sample_pipeline rng_zero Hbs H).
  discriminate.
Defined.

(** X2.  A call of [next_batch] consumes its batch although it raises:
    afterwards the first [batch_size] pending indices are gone, one draw
    of the random state has been taken for each of them, and the dataset,
    batch size, image size and number of examples are what they were. *)
Theorem next_batch_consumes_its_batch
    (scale_crop : nat -> image -> image) (PicklingError : exn)
    (self : t) (g : rng) :
  (0 < loader_batch_size (loader self))%nat ->
  indices_in_range (loader self) ->
  let call := next_batch scale_crop PicklingError self g in
  let self' := snd (fst call) in
  let bs := loader_batch_size (loader self) in
  sample_iter (loader self') = skipn bs (sample_iter (loader self)) /\
  snd call = advance (length (firstn bs (sample_iter (loader self)))) g /\
  dataset (loader self') = dataset (loader self) /\
  loader_batch_size (loader self') = bs /\
  batch_size self' = batch_size self /\
  image_size self' = image_size self /\
  n_examples self' = n_examples self.
Proof.
  destruct self as [b s [ds bs rest] n]. unfold indices_in_range.
  cbn [loader loader_batch_size sample_iter dataset].
  intros Hbs Hin. cbv zeta. destruct rest as [|i rest].
  - rewrite next_batch_exhausted by reflexivity.
    rewrite skipn_nil, firstn_nil. simpl. repeat split; reflexivity.
  - rewrite next_batch_pending_cons by assumption.
    simpl. repeat split; reflexivity.
Qed.

Lemma next_batch_consumes_its_batch_witness :
  (0 < loader_batch_size (loader sample_pipeline))%nat /\
  indices_in_range (loader sample_pipeline) /\
  sample_iter
    (loader (snd (fst (next_batch sample_scale_crop sample_PicklingError
                         sample_pipeline rng_zero))))
    = [4; 5; 6; 7; 8; 9]%nat.
Proof.
  assert (Hbs : (0 < loader_batch_size (loader sample_pipeline))%nat)
    by (simpl; lia).
  assert (H : indices_in_range (loader sample_pipeline))
    by (unfold indices_in_range; simpl; repeat constructor).
  split; [exact Hbs|]. split; [exact H|].
  exact (proj1 (next_batch_consumes_its_batch sample_scale_crop
                  sample_PicklingError sample_pipeline rng_zero Hbs H)).
Defined.

Lemma drain_indices_chunks (fuel : nat) (ds : ImageFolder) (bs : nat)
    (rest : list nat) :
  (0 < bs)%nat ->
  drain_indices fuel (mkIter ds bs rest) = chunks fuel bs rest.
Proof.
  intros Hbs. revert rest. induction fuel as [|fuel IH]; intros rest.
  - reflexivity.
  - destruct rest as [|i rest]; [reflexivity|].
    cbn [drain_indices chunks]. rewrite next_indices_cons by exact Hbs.
    rewrite IH. reflexivity.
Qed.

Lemma chunks_length (fuel bs : nat) (l : list nat) :
  (0 < bs)%nat -> (length l < fuel)%nat ->
  length (chunks fuel bs l) = ((length l + bs - 1) / bs)%nat.
Proof.
  intros Hbs. revert l. induction fuel as [|fuel IH]; intros l Hlen; [lia|].
  destruct l as [|x l].
  - simpl. rewrite Nat.div_small by lia. reflexivity.
  - cbn [length] in Hlen. cbn [chunks length].
    rewrite IH by (rewrite length_skipn; cbn [length]; lia).
    rewrite length_skipn. cbn [length].
    destruct (Nat.le_gt_cases bs (S (length l))) as [Hle|Hgt].
    + replace (S (length l) + bs - 1)%nat
        with ((S (length l) - bs + bs - 1) + 1 * bs)%nat by lia.
      rewrite Nat.div_add by lia. lia.
    + replace (S (length l) - bs)%nat with 0%nat by lia.
      rewrite (Nat.div_small (0 + bs - 1)) by lia.
      apply (Nat.div_unique _ _ 1%nat (length l)); lia.
Qed.

Lemma chunks_sizes (fuel bs : nat) (l : list nat) :
  (0 < bs)%nat ->
  Forall (fun c => 1 <= length c <= bs)%nat (chunks fuel bs l).
Proof.
  intros Hbs. revert l. induction fuel as [|fuel IH]; intros l.
  - constructor.
  - destruct l as [|x l]; [constructor|].
    cbn [chunks]. constructor; [|apply IH].
    rewrite length_firstn. simpl length. lia.
Qed.

Lemma chunks_full (fuel bs : nat) (l : list nat) (k : nat) :
  (0 < bs)%nat ->
  (S k < length (chunks fuel bs l))%nat ->
  length (nth k (chunks fuel bs l) []) = bs.
Proof.
  intros Hbs. revert l k. induction fuel as [|fuel IH]; intros l k Hk.
  - simpl in Hk. lia.
  - destruct l as [|x l]; [simpl in Hk; lia|].
    cbn [chunks] in *. cbn [length] in Hk.
    destruct k as [|k].
    + cbn [nth]. rewrite length_firstn.
      destruct fuel as [|fuel]; [simpl in Hk; lia|].
      destruct (skipn bs (x :: l)) as [|z rest] eqn:E; [simpl in Hk; lia|].
      assert (Hl : (length (skipn bs (x :: l)) >= 1)%nat)
        by (rewrite E; simpl; lia).
      rewrite length_skipn in Hl. lia.
    + cbn [nth]. apply IH. lia.
Qed.

(** X3.  The loader of a pipeline created over [n] files with batch size
    [bs] draws the indices of one pass in [ceil (n / bs)] batches; every
    index batch holds between 1 and [bs] indices, and every one but the
    last holds exactly [bs]. *)
Theorem loader_batch_count
    (EmptyFolderError : exn) (g : rng) (files : list (image * nat))
    (bs size : nat) (self : t) :
  init EmptyFolderError g files bs size = Ok self ->
  let batches := drain_indices (S (length files)) (loader self) in
  length batches = ((length files + bs - 1) / bs)%nat /\
  Forall (fun b => 1 <= length b <= bs)%nat batches /\
  (forall k, (S k < length batches)%nat -> length (nth k batches []) = bs).
Proof.
  intros H. apply init_Ok in H as (Hbs & _ & ->). cbn [loader]. cbv zeta.
  rewrite drain_indices_chunks by exact Hbs.
  split; [|split].
  - rewrite chunks_length by (rewrite ?length_seq; lia).
    rewrite length_seq. reflexivity.
  - apply chunks_sizes. exact Hbs.
  - intros k Hk. apply chunks_full; assumption.
Qed.

Lemma loader_batch_count_witness :
  init sample_EmptyFolderError rng_zero sample_folder 4 64
    = Ok sample_pipeline /\
  length (drain_indices 11 (loader sample_pipeline)) = 3%nat.
Proof.
  assert (H : init sample_EmptyFolderError rng_zero sample_folder 4 64
              = Ok sample_pipeline) by reflexivity.
  split; [exact H|].
  exact (proj1 (loader_batch_count sample_EmptyFolderError rng_zero
                  sample_folder 4 64 sample_pipeline H)).
Defined.

(** X4.  [rgb2yuv] sends a grey pixel [(x, x, x)] to luma [x / 127.5 - 1]
    and zero chroma: the first column of the coefficient matrix sums to 1
    and the other two to 0. *)
Theorem rgb2yuv_grey_has_zero_chroma (x : Q) :
  pixel_eq (rgb2yuv_pixel (x, x, x)) (x / 127.5 - 1, 0, 0) /\
  image_eq (rgb2yuv [[(x, x, x)]]) [[(x / 127.5 - 1, 0, 0)]].
Proof.
  assert (H : pixel_eq (rgb2yuv_pixel (x, x, x)) (x / 127.5 - 1, 0, 0)).
  { cbv beta iota zeta delta
      [rgb2yuv_pixel pixel_eq map_pixel dot add_vec offset rgb2yuv_matrix].
    rewrite !Qdiv_scale. repeat split; lra. }
  split; [exact H|].
  rewrite rgb2yuv_map. unfold image_eq, map_image. cbn [map].
  constructor; [constructor; [exact H | constructor] | constructor].
Qed.

(** X5.  [rgb2yuv] loses no colour: two pixels with the same image are
    the same pixel. *)
Theorem rgb2yuv_pixel_injective (p q : pixel) :
  pixel_eq (rgb2yuv_pixel p) (rgb2yuv_pixel q) -> pixel_eq p q.
Proof.
  destruct p as [[r1 g1] b1], q as [[r2 g2] b2].
  cbv beta iota zeta delta
    [rgb2yuv_pixel pixel_eq map_pixel dot add_vec offset rgb2yuv_matrix].
  rewrite !Qdiv_scale. intros (H0 & H1 & H2).
  repeat split; lra.
Qed.

Lemma rgb2yuv_pixel_injective_witness :
  pixel_eq (rgb2yuv_pixel (255, 0, 0)) (rgb2yuv_pixel (255 + 0, 0, 0)) /\
  pixel_eq (255, 0, 0) (255 + 0, 0, 0).
Proof.
  assert (H : pixel_eq (rgb2yuv_pixel (255, 0, 0))
                       (rgb2yuv_pixel (255 + 0, 0, 0)))
    by (cbv beta iota zeta delta
          [rgb2yuv_pixel pixel_eq map_pixel dot add_vec offset rgb2yuv_matrix];
        repeat split; reflexivity).
  split; [exact H|].
  exact (rgb2yuv_pixel_injective (255, 0, 0) (255 + 0, 0, 0) H).
Defined.

Lemma clip_in_range (x : Q) : 0 <= clip 0 255 x /\ clip 0 255 x <= 255.
Proof.
  unfold clip.
  destruct (Q.max_spec x 0) as [[Hlt Hm]|[Hle Hm]];
    destruct (Q.min_spec (Qmax x 0) 255) as [[Hlt' Hn]|[Hle' Hn]];
    rewrite Hn; try rewrite Hm; split; lra.
Qed.

(** X6.  Whatever array it is given, every channel of every pixel of the
    array [yuv2rgb] returns lies in [0, 255], and the array returned has
    the height and the row widths of the argument. *)
Theorem yuv2rgb_returns_valid_rgb (r : ref) (h : heap) :
  image_in_range 0 255 (fst (yuv2rgb r h)) /\
  map (@length pixel) (fst (yuv2rgb r h)) = map (@length pixel) (h r).
Proof.
  rewrite yuv2rgb_result. unfold image_in_range, map_image. split.
  - apply Forall_map. apply Forall_forall. intros row _.
    apply Forall_map. apply Forall_forall. intros [[a b] c] _.
    cbv beta iota zeta delta
      [in_range map_pixel dot sub_vec offset yuv2rgb_matrix].
    repeat split; apply clip_in_range.
  - rewrite map_map. apply map_ext. intros row. apply length_map.
Qed.


(** X8.  Over exact arithmetic the round trip [rgb2yuv], normalization
    undone, [yuv2rgb] moves no channel of an image with values in
    [0, 255] (integers or not) by more than 1/1000. *)
Theorem round_trip_within_a_thousandth (im : image) (r : ref) (h : heap) :
  image_in_range 0 255 im ->
  h r = denormalize (rgb2yuv im) ->
  image_close (1 # 1000) (fst (yuv2rgb r h)) im.
Proof.
  intros Him Hh. apply round_trip_error; [lra | exact Him | exact Hh].
Qed.

Lemma round_trip_within_a_thousandth_witness :
  image_in_range 0 255 sample_image /\
  image_close (1 # 1000)
    (fst (yuv2rgb 0%nat (fun _ => denormalize (rgb2yuv sample_image))))
    sample_image.
Proof.
  split; [exact sample_image_in_range|].
  apply (round_trip_within_a_thousandth sample_image 0%nat
           (fun _ => denormalize (rgb2yuv sample_image))
           sample_image_in_range).
  reflexivity.
Defined.

End ETL_extra.

(** ** Further properties of the generator *)

Module Generator_extra.

Import Generator Generator_facts Lra.
Local Open Scope R_scope.

Local Abbreviation Rtanh := Rtrigo_def.tanh.

Lemma tanh_odd (x : R) : Rtanh (- x) = - Rtanh x.
Proof.
  unfold Rtanh, sinh, cosh. rewrite Ropp_involutive.
  pose proof (exp_pos x). pose proof (exp_pos (- x)).
  field. lra.
Qed.

Lemma tanh_1_le : Rtanh 1 <= 4 / 5.
Proof.
  unfold Rtanh, sinh, cosh. rewrite exp_Ropp.
  pose proof (exp_pos 1) as He. pose proof exp_le_3 as H3.
  assert (Hi : 0 < / exp 1) by (apply Rinv_0_lt_compat; exact He).
  assert (Hei : exp 1 * / exp 1 = 1) by (apply Rinv_r; lra).
  set (e := exp 1) in *. set (i := / e) in *.
  apply (Rmult_le_reg_r ((e + i) / 2)); [lra|].
  replace ((e - i) / 2 / ((e + i) / 2) * ((e + i) / 2))
    with ((e - i) / 2) by (field; lra).
  nra.
Qed.

Lemma batch_norm_single_value (bn : BatchNorm2d) (x : Tensor) :
  single_value x -> batch_norm true bn x = Raise ValueError.
Proof.
  unfold batch_norm, single_value. intros H.
  apply Nat.eqb_eq in H. rewrite H. reflexivity.
Qed.

Lemma forward_single_value_training (ps : Parameters) (noise v : Tensor) :
  valid_input noise v -> single_value v ->
  forward (init ps true) noise v = Raise ValueError.
Proof.
  intros (Hn & Hv & V0 & V2 & V3 & Hh & Hw) Hs.
  unfold forward. rewrite (cat1_total v noise) by congruence. cbn [bind].
  unfold blocks. cbn [seq]. rewrite run_blocks_cons.
  unfold conv_block at 1.
  rewrite cat1_total by (simpl; congruence). cbn [bind getattr_conv].
  match goal with
  | |- context [conv2d ?cv ?xc] =>
      destruct (conv2d_total cv xc) as [z Hz];
        [simpl; lia | simpl; lia | simpl; lia |]
  end.
  rewrite Hz. cbn [bind Nat.eqb negb getattr_norm].
  apply conv2d_Ok in Hz as (_ & _ & _ & Z0 & _ & Z2 & Z3 & _).
  simpl in Z0, Z2, Z3.
  rewrite batch_norm_single_value; [reflexivity|].
  unfold single_value in *.
  replace (size0 z) with (size0 v) by lia.
  replace (size2 z) with (size2 v) by lia.
  replace (size3 z) with (size3 v) by lia. exact Hs.
Qed.

(** X9.  [forward] returns a tensor exactly on the inputs where [noise]
    and [v] have one channel each, agree on the batch and spatial sizes
    and have no empty spatial axis, and where, in training mode, there is
    more than one value per channel.  In training mode an input of that
    shape with a single value per channel makes the first normalization
    raise [ValueError]. *)
Theorem forward_returns_iff_valid_input
    (ps : Parameters) (tr : bool) (noise v : Tensor) :
  ((exists out, forward (init ps tr) noise v = Ok out) <->
   valid_input noise v /\ (tr = true -> ~ single_value v)) /\
  (valid_input noise v -> tr = true -> single_value v ->
   forward (init ps tr) noise v = Raise ValueError).
Proof.
  split; [split|].
  - intros [out H]. split; [now apply forward_Ok in H|].
    intros ->. exact (forward_Ok_training ps noise v out H).
  - intros [Hvalid Hs]. apply forward_total; [exact Hvalid|].
    destruct tr; [right; apply Hs; reflexivity | left; reflexivity].
  - intros Hvalid -> Hs. now apply forward_single_value_training.
Qed.

Lemma forward_returns_iff_valid_input_witness :
  valid_input sample_noise sample_v /\
  exists out, forward sample_generator sample_noise sample_v = Ok out.
Proof.
  split; [exact sample_input_valid|].
  destruct (forward_returns_iff_valid_input sample_parameters false
              sample_noise sample_v) as [[_ H] _].
  apply H. split; [exact sample_input_valid|].
  intros Hf. discriminate Hf.
Defined.

(** X10.  [forward] never raises [AttributeError]: the lookups of
    [conv1] ... [conv6] and [norm1] ... [norm5] by name never fail.  What
    it raises is [RuntimeError], or, in training mode on a single value
    per channel, the [ValueError] of a normalization. *)
Theorem forward_never_raises_AttributeError
    (ps : Parameters) (tr : bool) (noise v : Tensor) :
  forward (init ps tr) noise v <> Raise AttributeError /\
  (forall e, forward (init ps tr) noise v = Raise e ->
             e = RuntimeError \/
             (e = ValueError /\ tr = true /\ single_value v)) /\
  (tr = false ->
   forall e, forward (init ps tr) noise v = Raise e -> e = RuntimeError).
Proof.
  split; [|split].
  - intros H. apply forward_Raise in H as [H|(H & _)]; discriminate H.
  - intros e H. exact (forward_Raise ps tr noise v e H).
  - intros -> e H. apply forward_Raise in H as [H|(_ & Hf & _)];
      [exact H | discriminate Hf].
Qed.

Lemma forward_never_raises_AttributeError_witness :
  forward sample_generator sample_noise_3ch sample_v_16
    = Raise RuntimeError /\
  RuntimeError = RuntimeError.
Proof.
  assert (H : forward sample_generator sample_noise_3ch sample_v_16
              = Raise RuntimeError)
    by (apply forward_invalid_eval; unfold valid_input; simpl; lia).
  split; [exact H|].
  destruct (forward_never_raises_AttributeError sample_parameters false
              sample_noise_3ch sample_v_16) as (_ & _ & Honly).
  exact (Honly eq_refl RuntimeError H).
Defined.

(** X11.  What [forward] returns has the batch size of its inputs and
    exactly three channels. *)
Theorem forward_output_shape
    (ps : Parameters) (tr : bool) (noise v out : Tensor) :
  forward (init ps tr) noise v = Ok out ->
  size0 out = size0 v /\ size0 out = size0 noise /\ size1 out = 3%nat.
Proof.
  intros H.
  apply forward_Ok in H
    as ((_ & _ & V0 & _) & z & _ & _ & (F0 & F1 & _) & _).
  repeat split; congruence.
Qed.

Lemma forward_output_shape_witness :
  exists out,
    forward sample_generator sample_noise sample_v = Ok out /\
    size0 out = 1%nat /\ size1 out = 3%nat.
Proof.
  destruct sample_forward_returns as [out Hout].
  exists out. split; [exact Hout|].
  destruct (forward_output_shape sample_parameters false
              sample_noise sample_v out Hout) as (H0 & _ & H1).
  split; [exact H0 | exact H1].
Defined.

(** X12.  Because [tanh] is applied twice, the chroma entries [forward]
    returns never reach 4/5 in absolute value: each lies between
    [- tanh 1] and [tanh 1], and [tanh 1 <= 4/5]. *)
Theorem forward_chroma_below_four_fifths
    (ps : Parameters) (tr : bool) (noise v out : Tensor) :
  forward (init ps tr) noise v = Ok out ->
  forall n c h w, (c < 2)%nat ->
    - Rtanh 1 <= item out n c h w <= Rtanh 1 /\
    - (4 / 5) < item out n c h w < 4 / 5.
Proof.
  intros H n c h w Hc.
  apply forward_Ok in H as (_ & z & _ & _ & _ & Hitem).
  rewrite Hitem. apply Nat.ltb_lt in Hc. rewrite Hc.
  destruct (tanh_bounds (item z n c h w)) as [Hlo Hhi].
  pose proof (tanh_increasing _ _ Hhi) as Hup.
  pose proof (tanh_increasing _ _ Hlo) as Hdown.
  assert (Hm : Rtanh (-1) = - Rtanh 1)
    by (rewrite <- tanh_odd; f_equal; lra).
  rewrite Hm in Hdown. pose proof tanh_1_le. lra.
Qed.

Lemma forward_chroma_below_four_fifths_witness :
  exists out,
    forward sample_generator sample_noise sample_v = Ok out /\
    - (4 / 5) < item out 0 0 0 0 < 4 / 5.
Proof.
  destruct sample_forward_returns as [out Hout].
  exists out. split; [exact Hout|].
  destruct (forward_chroma_below_four_fifths sample_parameters false
              sample_noise sample_v out Hout 0%nat 0%nat 0%nat 0%nat
              ltac:(lia)) as [_ H].
  exact H.
Defined.

(** X13.  [conv_block] looks its layers up by name.  A block number
    outside 1..6 has no convolution, and block 6 has no normalization:
    once the concatenation (and, for block 6, the convolution) has gone
    through, the call raises [AttributeError]. *)
Theorem conv_block_missing_layer_raises_AttributeError
    (ps : Parameters) (tr : bool) (x v : Tensor) :
  size0 x = size0 v -> size2 x = size2 v -> size3 x = size3 v ->
  (forall block last,
      (block = 0 \/ 7 <= block)%nat ->
      conv_block (init ps tr) x v block last = Raise AttributeError) /\
  ((size1 x + size1 v = 33)%nat ->
   (1 <= size2 x)%nat -> (1 <= size3 x)%nat ->
   conv_block (init ps tr) x v 6 false = Raise AttributeError).
Proof.
  intros H0 H2 H3. split.
  - intros block last Hb. unfold conv_block.
    rewrite (cat1_total x v H0 H2 H3). cbn [bind].
    destruct block as [|[|[|[|[|[|[|block]]]]]]]; try lia; reflexivity.
  - intros H1 Hh Hw. unfold conv_block.
    rewrite (cat1_total x v H0 H2 H3). cbn [bind getattr_conv].
    match goal with
    | |- context [conv2d ?cv ?xc] =>
        destruct (conv2d_total cv xc) as [z Hz];
          [simpl; lia | simpl; lia | simpl; lia |]
    end.
    rewrite Hz. reflexivity.
Qed.

Lemma conv_block_missing_layer_raises_AttributeError_witness :
  conv_block sample_generator sample_noise sample_v 7 false
    = Raise AttributeError /\
  conv_block sample_generator (full 1 32 2 2 0) sample_v 6 false
    = Raise AttributeError.
Proof.
  split.
  - destruct (conv_block_missing_layer_raises_AttributeError
                sample_parameters false sample_noise sample_v
                eq_refl eq_refl eq_refl) as [H _].
    apply H. right. lia.
  - destruct (conv_block_missing_layer_raises_AttributeError
                sample_parameters false (full 1 32 2 2 0) sample_v
                eq_refl eq_refl eq_refl) as [_ H].
    apply H; simpl; lia.
Defined.

(** X14.  The activation of a block bounds what it returns: a block that
    is not the last returns no negative entry (ReLU), the last block
    returns entries between -1 and 1 (Tanh). *)
Theorem conv_block_activation_range
    (self : t) (x v : Tensor) (block : nat) (last : bool) (y : Tensor) :
  conv_block self x v block last = Ok y ->
  forall n c h w,
    if last then -1 <= item y n c h w <= 1 else 0 <= item y n c h w.
Proof.
  intros H n c h w.
  apply conv_block_inv in H
    as (xc & cv & z & _ & _ & _ & _ & _ & _ & _ & Hlast & Hnot).
  destruct last.
  - rewrite (Hlast eq_refl). simpl.
    pose proof (tanh_bounds (item z n c h w)). lra.
  - destruct (Hnot eq_refl) as (bn & w' & _ & _ & ->).
    simpl. apply Rmax_l.
Qed.

Lemma conv_block_activation_range_witness :
  exists y,
    conv_block sample_generator (full 1 2 2 2 0) sample_v 1 false = Ok y /\
    0 <= item y 0 0 0 0.
Proof.
  destruct (conv_block_init_total sample_parameters false
              (full 1 2 2 2 0) sample_v 1)
    as [y Hy]; try (simpl; lia); try (left; reflexivity).
  exists y. split; [exact Hy|].
  exact (conv_block_activation_range sample_generator (full 1 2 2 2 0)
           sample_v 1 false y Hy 0%nat 0%nat 0%nat 0%nat).
Defined.

(** X15.  The contract of block [i] of the generator, [1 <= i <= 6]: when
    it returns, its input and [v] agreed on batch and spatial sizes, their
    channels added up to the input channels of its convolution, no spatial
    axis was empty, and the result has the output channels of the block on
    the same batch and spatial sizes (the padding is (kernel - 1) / 2). *)
Theorem conv_block_keeps_spatial_size
    (ps : Parameters) (tr : bool) (x v : Tensor) (i : nat) (y : Tensor) :
  (1 <= i <= 6)%nat ->
  conv_block (init ps tr) x v i (Nat.eqb i 6) = Ok y ->
  (size1 x + size1 v)%nat = block_in_channels i /\
  size0 y = size0 x /\ size1 y = block_out_channels i /\
  size2 y = size2 x /\ size3 y = size3 x /\
  size2 x = size2 v /\ size3 x = size3 v /\
  (1 <= size2 x)%nat /\ (1 <= size3 x)%nat.
Proof.
  intros Hi H. apply conv_block_init_Ok in H; [|exact Hi].
  intuition.
Qed.

Lemma conv_block_keeps_spatial_size_witness :
  exists y,
    conv_block sample_generator (full 1 2 2 2 0) sample_v 1 (Nat.eqb 1 6)
      = Ok y /\
    size1 y = 128%nat /\ size2 y = 2%nat /\ size3 y = 2%nat.
Proof.
  destruct (conv_block_init_total sample_parameters false
              (full 1 2 2 2 0) sample_v 1)
    as [y Hy]; try (simpl; lia); try (left; reflexivity).
  exists y. split; [exact Hy|].
  destruct (conv_block_keeps_spatial_size sample_parameters false
              (full 1 2 2 2 0) sample_v 1 y ltac:(lia) Hy)
    as (_ & _ & H1 & H2 & H3 & _).
  auto.
Defined.

End Generator_extra.
